(** * bluesky-watchface: the analog layer ([pebble/src/modules/analog_layer.c])

    A shallow embedding of the analog watch-face layer and the properties
    its specification states about it.

    - Machine integers are [Z] with the C conversions written out
      ([to_int8], [to_int16], [to_uint16]); C's [/] and [%] are [Z.quot]
      and [Z.rem] (truncation toward zero).
    - The drawing procedure runs in a small logging monad [Host]: every
      call it makes to the Pebble SDK is appended to a trace, in program
      order.  [render] replays a trace against a graphics context to obtain
      the shapes that reach the frame buffer together with the colours and
      stroke widths in force when they were drawn.
    - The layer objects and the module's handles live in a [World] of two
      finite maps; the [data] pointer of a handle aliases the data block
      stored inside its layer. *)

From Stdlib Require Import ZArith Lia List Bool.
From stdpp Require Import base option list list_numbers gmap.

Local Open Scope Z_scope.

(** ** Machine integers *)

(** Conversion to a signed integer type of [bits] bits (two's complement
    wrap-around, as GCC defines it for the ARM targets of the SDK). *)
Definition wrap_signed (bits : Z) (z : Z) : Z :=
  (z + 2 ^ (bits - 1)) mod 2 ^ bits - 2 ^ (bits - 1).

Definition to_int8 (z : Z) : Z := wrap_signed 8 z.
Definition to_int16 (z : Z) : Z := wrap_signed 16 z.
Definition to_uint8 (z : Z) : Z := z mod 2 ^ 8.
Definition to_uint16 (z : Z) : Z := z mod 2 ^ 16.

Definition fits_int8 (z : Z) : Prop := -128 <= z <= 127.
Definition fits_int16 (z : Z) : Prop := -32768 <= z <= 32767.
Definition fits_int32 (z : Z) : Prop := -2147483648 <= z <= 2147483647.

(** C's reading of an integer as a condition. *)
Definition c_true (z : Z) : bool := negb (z =? 0).

(** ** Value types of the SDK *)

(** [GPoint], [GSize] and [GRect]: all four coordinates are [int16_t]. *)
Record GPoint : Type := mkGPoint { x : Z; y : Z }.
Record GSize : Type := mkGSize { w : Z; h : Z }.
Record GRect : Type := mkGRect { origin : GPoint; size : GSize }.

Definition int16_rect (r : GRect) : Prop :=
  fits_int16 r.(origin).(x) /\ fits_int16 r.(origin).(y) /\
  fits_int16 r.(size).(w) /\ fits_int16 r.(size).(h).

(** The colours the layer uses, out of the SDK's palette. *)
Inductive GColor : Type :=
  | GColorClear
  | GColorYellow
  | GColorDarkCandyAppleRed
  | GColorCyan
  | GColorElectricBlue
  | GColorCeleste
  | GColorBlueMoon.

Inductive GOvalScaleMode : Type :=
  | GOvalScaleModeFitCircle
  | GOvalScaleModeFillCircle.

(** Modelled from the spec: the full turn of the fixed-point angle unit, a
    constant of the host graphics API that the sources only use.  The SDK's
    [pebble.h] has [#define TRIG_MAX_ANGLE 0x10000]. *)
Definition TRIG_MAX_ANGLE : Z := 0x10000.

(** [struct tm], the calendar fields of the C library. *)
Record tm : Type := mk_tm {
  tm_sec : Z;
  tm_min : Z;
  tm_hour : Z;
  tm_mday : Z;
  tm_mon : Z;
  tm_year : Z;
  tm_wday : Z;
  tm_yday : Z;
  tm_isdst : Z
}.

(** Custom state per analog layer. *)
Record BSKY_AnalogData : Type := mkData {
  (* The "absolute" moment to be displayed. *)
  unix_time : Z;
  (* The timezone-local moment to be displayed. *)
  wall_time : tm;
  (* How thick the band of blue sky should be. *)
  sky_thickness : Z
}.

(** ** bsky_rect_trim *)

(** Make a smaller rect by trimming the edges of a larger one.  The
    parameter is an [int8_t]: the argument is converted on entry.  The sums
    are computed in [int] and converted to the [int16_t] fields. *)
Definition bsky_rect_trim (rect : GRect) (trim_arg : Z) : GRect :=
  let trim := to_int8 trim_arg in
  {| origin := {| x := to_int16 (rect.(origin).(x) + trim);
                  y := to_int16 (rect.(origin).(y) + trim) |};
     size := {| w := to_int16 (rect.(size).(w) - trim * 2);
                h := to_int16 (rect.(size).(h) - trim * 2) |} |}.

(** The rectangle [rect] shrunk by [d] on each of its four sides, in exact
    arithmetic: what the name of [bsky_rect_trim] promises. *)
Definition rect_inset (rect : GRect) (d : Z) : GRect :=
  {| origin := {| x := rect.(origin).(x) + d; y := rect.(origin).(y) + d |};
     size := {| w := rect.(size).(w) - d * 2; h := rect.(size).(h) - d * 2 |} |}.

(** ** The trace of SDK calls *)

Inductive HostCall : Type :=
  | Call_graphics_context_set_fill_color (color : GColor)
  | Call_graphics_fill_rect (rect : GRect) (corner_radius corner_mask : Z)
  | Call_graphics_fill_radial (rect : GRect) (scale_mode : GOvalScaleMode)
      (inset_thickness angle_start angle_end : Z)
  | Call_graphics_context_set_stroke_color (color : GColor)
  | Call_graphics_context_set_antialiased (enable : bool)
  | Call_gpoint_from_polar (rect : GRect) (scale_mode : GOvalScaleMode)
      (angle : Z)
  | Call_graphics_context_set_stroke_width (stroke_width : Z)
  | Call_graphics_draw_line (p0 p1 : GPoint)
  | Call_graphics_fill_circle (p : GPoint) (radius : Z)
  | Call_graphics_draw_circle (p : GPoint) (radius : Z).

(** A computation that calls the SDK: it extends the trace of the calls made
    so far and returns a value. *)
Definition Host (A : Type) : Type := list HostCall -> A * list HostCall.

#[export] Instance Host_ret : MRet Host := fun A a t => (a, t).
#[export] Instance Host_bind : MBind Host :=
  fun A B f m t => let '(a, t') := m t in f a t'.

Definition call (c : HostCall) : Host unit := fun t => (tt, t ++ [c]).

(** The calls a computation makes, started on the empty trace. *)
Definition trace_of {A : Type} (m : Host A) : list HostCall := snd (m []).

(** [for (i = start; i < start + n; ++i) body(i)], the body leaving [i]
    alone. *)
Fixpoint for_loop (n : nat) (i : Z) (body : Z -> Host unit) : Host unit :=
  match n with
  | O => mret tt
  | S n' => body i ;; for_loop n' (i + 1) body
  end.

Definition graphics_context_set_fill_color (color : GColor) : Host unit :=
  call (Call_graphics_context_set_fill_color color).
Definition graphics_fill_rect (rect : GRect) (corner_radius corner_mask : Z)
  : Host unit :=
  call (Call_graphics_fill_rect rect (to_uint16 corner_radius) corner_mask).
Definition graphics_fill_radial (rect : GRect) (scale_mode : GOvalScaleMode)
  (inset_thickness angle_start angle_end : Z) : Host unit :=
  call (Call_graphics_fill_radial rect scale_mode (to_uint16 inset_thickness)
          angle_start angle_end).
Definition graphics_context_set_stroke_color (color : GColor) : Host unit :=
  call (Call_graphics_context_set_stroke_color color).
Definition graphics_context_set_antialiased (enable : bool) : Host unit :=
  call (Call_graphics_context_set_antialiased enable).
Definition graphics_context_set_stroke_width (stroke_width : Z) : Host unit :=
  call (Call_graphics_context_set_stroke_width (to_uint8 stroke_width)).
Definition graphics_draw_line (p0 p1 : GPoint) : Host unit :=
  call (Call_graphics_draw_line p0 p1).
Definition graphics_fill_circle (p : GPoint) (radius : Z) : Host unit :=
  call (Call_graphics_fill_circle p (to_uint16 radius)).
Definition graphics_draw_circle (p : GPoint) (radius : Z) : Host unit :=
  call (Call_graphics_draw_circle p (to_uint16 radius)).

(** The palette of the sky bands, outermost first. *)
Definition color_sky_fill : list GColor :=
  [GColorCyan; GColorElectricBlue; GColorCeleste].
Definition color_sky_fill_len : Z := Z.of_nat (length color_sky_fill).

Section Redraw.

(** The SDK's polar-to-Cartesian mapping: the point of the oval inscribed
    in a rectangle at a fixed-point angle. *)
Variable polar : GRect -> GOvalScaleMode -> Z -> GPoint.

Definition gpoint_from_polar (rect : GRect) (scale_mode : GOvalScaleMode)
  (angle : Z) : Host GPoint :=
  fun t => (polar rect scale_mode angle,
            t ++ [Call_gpoint_from_polar rect scale_mode angle]).

(** [sky_thickness] as the redraw recomputes it from the bounds. *)
Definition sky_thickness_of (bounds : GRect) : Z :=
  to_int16 (if bounds.(size).(w) >? bounds.(size).(h)
            then Z.quot bounds.(size).(h) 6
            else Z.quot bounds.(size).(w) 6).

Definition midnight_angle : Z := Z.quot TRIG_MAX_ANGLE 2.

Definition hour_angle (hour : Z) : Z :=
  Z.rem (midnight_angle + Z.quot (hour * TRIG_MAX_ANGLE) 24) TRIG_MAX_ANGLE.

Definition sun_angle (data : BSKY_AnalogData) : Z :=
  midnight_angle
  + Z.quot (TRIG_MAX_ANGLE * data.(wall_time).(tm_hour)) 24
  + Z.quot (TRIG_MAX_ANGLE * data.(wall_time).(tm_min)) (24 * 60).

(** The body of [bsky_analog_layer_update], from the clearing of the
    layer on; [bounds] and [data] are what [layer_get_bounds] and
    [layer_get_data] returned. *)
Definition bsky_analog_layer_paint (bounds : GRect) (data : BSKY_AnalogData)
  : Host unit :=
  let color_sun_fill := GColorYellow in
  let color_sun_stroke := GColorDarkCandyAppleRed in
  let color_sky_stroke := GColorBlueMoon in
  graphics_context_set_fill_color GColorClear ;;
  graphics_fill_rect bounds 0 0 ;;
  (* Update the Blue Sky *)
  let sky_bounds := bounds in
  let sky_thickness := sky_thickness_of sky_bounds in
  for_loop (Z.to_nat color_sky_fill_len) 0 (fun sky_fill =>
    graphics_context_set_fill_color
      (nth (Z.to_nat sky_fill) color_sky_fill GColorClear) ;;
    graphics_fill_radial
      (bsky_rect_trim sky_bounds
         (Z.quot (sky_thickness * sky_fill) color_sky_fill_len))
      GOvalScaleModeFitCircle
      (Z.quot sky_thickness color_sky_fill_len)
      0
      TRIG_MAX_ANGLE) ;;
  (* Update the 24 hour markers *)
  let sky_inset := bsky_rect_trim sky_bounds sky_thickness in
  graphics_context_set_stroke_color color_sky_stroke ;;
  graphics_context_set_antialiased true ;;
  for_loop 24 0 (fun hour =>
    let hour_angle := hour_angle hour in
    p0 ← gpoint_from_polar sky_inset GOvalScaleModeFitCircle hour_angle ;
    p1 ← gpoint_from_polar bounds GOvalScaleModeFitCircle hour_angle ;
    graphics_context_set_stroke_width
      (if c_true (Z.rem hour 3) then 1 else 3) ;;
    graphics_draw_line p0 p1) ;;
  (* Update the Sun *)
  let sun_angle := sun_angle data in
  let sun_diameter := Z.quot (sky_thickness * 3) 4 in
  let sun_orbit := bsky_rect_trim sky_bounds (Z.quot sky_thickness 2) in
  sun_center ← gpoint_from_polar sun_orbit GOvalScaleModeFitCircle
                 sun_angle ;
  graphics_context_set_fill_color color_sun_fill ;;
  graphics_fill_circle sun_center (Z.quot sun_diameter 2) ;;
  graphics_context_set_stroke_color color_sun_stroke ;;
  graphics_context_set_stroke_width 2 ;;
  graphics_draw_circle sun_center (Z.quot sun_diameter 2).

End Redraw.

(** ** What a trace draws *)

(** Modelled from the spec: the drawing context of the host, with its
    settable fill colour, stroke colour, stroke width and antialiasing
    flag. *)
Record GContext : Type := mkGContext {
  fill_color : GColor;
  stroke_color : GColor;
  stroke_width : Z;
  antialiased : bool
}.

(** A shape on the frame buffer, with the attributes it was drawn with. *)
Inductive Shape : Type :=
  | FilledRect (rect : GRect) (fill : GColor)
  | FilledRadial (rect : GRect) (scale_mode : GOvalScaleMode)
      (inset_thickness angle_start angle_end : Z) (fill : GColor)
  | Line (p0 p1 : GPoint) (stroke : GColor) (width : Z) (smooth : bool)
  | FilledCircle (p : GPoint) (radius : Z) (fill : GColor)
  | CircleOutline (p : GPoint) (radius : Z) (stroke : GColor) (width : Z).

(** Replays a trace: the setters update the context, the drawing calls emit
    a shape with the attributes then in force, [gpoint_from_polar] draws
    nothing. *)
Fixpoint render (ctx : GContext) (calls : list HostCall) : list Shape :=
  match calls with
  | [] => []
  | c :: rest =>
      match c with
      | Call_graphics_context_set_fill_color color =>
          render {| fill_color := color; stroke_color := ctx.(stroke_color);
                    stroke_width := ctx.(stroke_width);
                    antialiased := ctx.(antialiased) |} rest
      | Call_graphics_context_set_stroke_color color =>
          render {| fill_color := ctx.(fill_color); stroke_color := color;
                    stroke_width := ctx.(stroke_width);
                    antialiased := ctx.(antialiased) |} rest
      | Call_graphics_context_set_stroke_width width =>
          render {| fill_color := ctx.(fill_color);
                    stroke_color := ctx.(stroke_color);
                    stroke_width := width;
                    antialiased := ctx.(antialiased) |} rest
      | Call_graphics_context_set_antialiased enable =>
          render {| fill_color := ctx.(fill_color);
                    stroke_color := ctx.(stroke_color);
                    stroke_width := ctx.(stroke_width);
                    antialiased := enable |} rest
      | Call_gpoint_from_polar _ _ _ => render ctx rest
      | Call_graphics_fill_rect rect _ _ =>
          FilledRect rect ctx.(fill_color) :: render ctx rest
      | Call_graphics_fill_radial rect mode inset a0 a1 =>
          FilledRadial rect mode inset a0 a1 ctx.(fill_color)
          :: render ctx rest
      | Call_graphics_draw_line p0 p1 =>
          Line p0 p1 ctx.(stroke_color) ctx.(stroke_width) ctx.(antialiased)
          :: render ctx rest
      | Call_graphics_fill_circle p radius =>
          FilledCircle p radius ctx.(fill_color) :: render ctx rest
      | Call_graphics_draw_circle p radius =>
          CircleOutline p radius ctx.(stroke_color) ctx.(stroke_width)
          :: render ctx rest
      end
  end.

Definition is_radial (s : Shape) : bool :=
  match s with FilledRadial _ _ _ _ _ _ => true | _ => false end.
Definition is_line (s : Shape) : bool :=
  match s with Line _ _ _ _ _ => true | _ => false end.
Definition is_circle (s : Shape) : bool :=
  match s with FilledCircle _ _ _ | CircleOutline _ _ _ _ => true | _ => false end.

(** The angles handed to [gpoint_from_polar], in call order. *)
Fixpoint polar_angles (calls : list HostCall) : list Z :=
  match calls with
  | [] => []
  | Call_gpoint_from_polar _ _ angle :: rest => angle :: polar_angles rest
  | _ :: rest => polar_angles rest
  end.

(** The rectangles handed to [gpoint_from_polar], in call order. *)
Fixpoint polar_rects (calls : list HostCall) : list GRect :=
  match calls with
  | [] => []
  | Call_gpoint_from_polar rect _ _ :: rest => rect :: polar_rects rest
  | _ :: rest => polar_rects rest
  end.

(** The radius of the circle that [GOvalScaleModeFitCircle] fits into a
    rectangle: half its shorter side. *)
Definition fit_circle_radius (rect : GRect) : Z :=
  Z.quot (Z.min rect.(size).(w) rect.(size).(h)) 2.

(** Degrees, and tenths of a degree, in the fixed-point unit (the SDK's
    [DEG_TO_TRIGANGLE]). *)
Definition deg (d : Z) : Z := Z.quot (d * TRIG_MAX_ANGLE) 360.
Definition decideg (d : Z) : Z := Z.quot (d * TRIG_MAX_ANGLE) 3600.

(** ** Layers, handles and the operations of the module *)

(** The one update procedure a layer of this module is given. *)
Inductive LayerUpdateProc : Type :=
  | Proc_bsky_analog_layer_update.

(** A layer of the SDK created with a data block: the block lives in the
    layer's own allocation. *)
Record Layer : Type := mkLayer {
  layer_frame : GRect;
  layer_bounds : GRect;
  layer_update_proc : option LayerUpdateProc;
  layer_dirty : bool;
  layer_data : BSKY_AnalogData
}.

(** [struct BSKY_AnalogLayer].  A pointer is the address of a layer or
    [None] for [NULL]; [data] holds the address of the layer whose block it
    points into. *)
Record BSKY_AnalogLayer : Type := mkAnalogLayer {
  (* The real Pebble layer, of course. *)
  layer : option positive;
  (* A conveniently typed pointer to custom state data, stored in the
     layer itself. *)
  data : option positive
}.

Record World : Type := mkWorld {
  handles : gmap positive BSKY_AnalogLayer;
  layers : gmap positive Layer
}.

(** Code over the world.  [None] is undefined behaviour: a [NULL] or
    dangling pointer was dereferenced. *)
Definition Sys (A : Type) : Type := World -> option (A * World).

#[export] Instance Sys_ret : MRet Sys := fun A a s => Some (a, s).
#[export] Instance Sys_bind : MBind Sys :=
  fun A B f m s => match m s with Some (a, s') => f a s' | None => None end.

Definition zero_tm : tm := mk_tm 0 0 0 0 0 0 0 0 0.
Definition zero_data : BSKY_AnalogData := mkData 0 zero_tm 0.

(** [malloc(sizeof(struct BSKY_AnalogLayer))]: [avail] tells whether the
    allocator can serve the request.  The fields of a fresh block are
    indeterminate in C; the module writes both before it reads them. *)
Definition malloc (avail : bool) : Sys (option positive) := fun s =>
  if avail then
    let p := fresh (dom s.(handles)) in
    Some (Some p, {| handles := <[p := mkAnalogLayer None None]> s.(handles);
                     layers := s.(layers) |})
  else Some (None, s).

Definition free (p : positive) : Sys unit := fun s =>
  match s.(handles) !! p with
  | Some _ => Some (tt, {| handles := delete p s.(handles);
                           layers := s.(layers) |})
  | None => None
  end.

(** Modelled from the spec: [layer_create_with_data] is the SDK's and not
    part of the sources.  The drawable region is created with the given frame
    and bounds equal to it, no redraw callback, nothing to redraw, and a
    co-allocated state block whose fields are zero-valued; creation fails,
    changing nothing, when the allocator cannot serve it. *)
Definition layer_create_with_data (avail : bool) (frame : GRect)
  : Sys (option positive) := fun s =>
  if avail then
    let l := fresh (dom s.(layers)) in
    Some (Some l, {| handles := s.(handles);
                     layers := <[l := mkLayer frame frame None false zero_data]>
                                 s.(layers) |})
  else Some (None, s).

Definition with_layer {A : Type} (l : option positive)
  (k : positive -> Layer -> Sys A) : Sys A := fun s =>
  match l with
  | Some a => match s.(layers) !! a with Some L => k a L s | None => None end
  | None => None
  end.

Definition put_layer (a : positive) (L : Layer) : Sys unit := fun s =>
  Some (tt, {| handles := s.(handles); layers := <[a := L]> s.(layers) |}).

Definition with_handle {A : Type} (p : positive)
  (k : BSKY_AnalogLayer -> Sys A) : Sys A := fun s =>
  match s.(handles) !! p with Some H => k H s | None => None end.

Definition put_handle (p : positive) (H : BSKY_AnalogLayer) : Sys unit :=
  fun s => Some (tt, {| handles := <[p := H]> s.(handles);
                        layers := s.(layers) |}).

(** Modelled from the spec: the SDK's operations on a layer, which are not
    part of the sources: reading the address of the data block and the
    bounds, attaching the update callback, marking dirty to request a
    redraw, and destruction, which releases the data block with the layer. *)
Definition layer_get_data (l : option positive) : Sys (option positive) :=
  with_layer l (fun a _ => mret (Some a)).
Definition layer_get_bounds (l : option positive) : Sys GRect :=
  with_layer l (fun _ L => mret L.(layer_bounds)).
Definition layer_set_update_proc (l : option positive)
  (proc : LayerUpdateProc) : Sys unit :=
  with_layer l (fun a L =>
    put_layer a (mkLayer L.(layer_frame) L.(layer_bounds) (Some proc)
                   L.(layer_dirty) L.(layer_data))).
Definition layer_mark_dirty (l : option positive) : Sys unit :=
  with_layer l (fun a L =>
    put_layer a (mkLayer L.(layer_frame) L.(layer_bounds)
                   L.(layer_update_proc) true L.(layer_data))).
Definition layer_destroy (l : option positive) : Sys unit :=
  with_layer l (fun a _ s =>
    Some (tt, {| handles := s.(handles); layers := delete a s.(layers) |})).

(** Loads and stores through the pointers of the module. *)
Definition load_layer (p : positive) : Sys (option positive) :=
  with_handle p (fun H => mret H.(layer)).
Definition load_data (p : positive) : Sys (option positive) :=
  with_handle p (fun H => mret H.(data)).
Definition store_layer (p : positive) (l : option positive) : Sys unit :=
  with_handle p (fun H => put_handle p (mkAnalogLayer l H.(data))).
Definition store_data (p : positive) (d : option positive) : Sys unit :=
  with_handle p (fun H => put_handle p (mkAnalogLayer H.(layer) d)).
Definition read_data (d : option positive) : Sys BSKY_AnalogData :=
  with_layer d (fun _ L => mret L.(layer_data)).
Definition store_unix_time (d : option positive) (time : Z) : Sys unit :=
  with_layer d (fun a L =>
    put_layer a (mkLayer L.(layer_frame) L.(layer_bounds)
                   L.(layer_update_proc) L.(layer_dirty)
                   (mkData time L.(layer_data).(wall_time)
                      L.(layer_data).(sky_thickness)))).
Definition store_wall_time (d : option positive) (wall : tm) : Sys unit :=
  with_layer d (fun a L =>
    put_layer a (mkLayer L.(layer_frame) L.(layer_bounds)
                   L.(layer_update_proc) L.(layer_dirty)
                   (mkData L.(layer_data).(unix_time) wall
                      L.(layer_data).(sky_thickness)))).

Section AnalogLayer.

Variable polar : GRect -> GOvalScaleMode -> Z -> GPoint.

(** The C library's [localtime], under the timezone of the host. *)
Variable localtime : Z -> tm.

(** The redraw callback: reads the layer, then paints.  The result is
    the trace of the SDK calls it made. *)
Definition bsky_analog_layer_update (layer : option positive)
  : Sys (list HostCall) :=
  d ← layer_get_data layer ;
  data ← read_data d ;
  bounds ← layer_get_bounds layer ;
  mret (trace_of (bsky_analog_layer_paint polar bounds data)).

Definition bsky_analog_layer_create (handle_mem layer_mem : bool)
  (frame : GRect) : Sys (option positive) :=
  analog_layer ← malloc handle_mem ;
  match analog_layer with
  | Some p =>
      l ← layer_create_with_data layer_mem frame ;
      store_layer p l ;;
      l ← load_layer p ;
      match l with
      | None =>
          free p ;;
          mret None
      | Some _ =>
          d ← layer_get_data l ;
          store_data p d ;;
          layer_set_update_proc l Proc_bsky_analog_layer_update ;;
          mret (Some p)
      end
  | None => mret None
  end.

Definition bsky_analog_layer_destroy (analog_layer : positive) : Sys unit :=
  l ← load_layer analog_layer ;
  layer_destroy l ;;
  store_layer analog_layer None ;;
  store_data analog_layer None ;;
  free analog_layer.

Definition bsky_analog_layer_get_layer (analog_layer : positive)
  : Sys (option positive) :=
  load_layer analog_layer.

Definition bsky_analog_layer_set_time (analog_layer : positive) (time : Z)
  : Sys unit :=
  d ← load_data analog_layer ;
  store_unix_time d time ;;
  let wall_time := localtime time in
  d ← load_data analog_layer ;
  store_wall_time d wall_time ;;
  l ← load_layer analog_layer ;
  layer_mark_dirty l.

End AnalogLayer.

(** A handle as [bsky_analog_layer_create] leaves it and as it stays until
    it is destroyed: it points to a layer that exists, and its data pointer
    points into that layer. *)
Definition live_handle (s : World) (p : positive) (l : positive) : Prop :=
  s.(handles) !! p = Some (mkAnalogLayer (Some l) (Some l)) /\
  is_Some (s.(layers) !! l).

(** ** Regions and sample inputs *)

(** The shorter side of a region. *)
Definition shorter_side (bounds : GRect) : Z :=
  Z.min bounds.(size).(w) bounds.(size).(h).

(** A region whose sides are not negative and that lies within the 16-bit
    coordinate range, its far corner included. *)
Definition plain_region (bounds : GRect) : Prop :=
  int16_rect bounds /\
  0 <= bounds.(size).(w) /\ 0 <= bounds.(size).(h) /\
  fits_int16 (bounds.(origin).(x) + bounds.(size).(w)) /\
  fits_int16 (bounds.(origin).(y) + bounds.(size).(h)).

(** The insets the redraw asks [bsky_rect_trim] for: one per sky band, the
    full thickness for the hour markers, half of it for the sun's orbit. *)
Definition requested_insets (bounds : GRect) : list Z :=
  let sky_thickness := sky_thickness_of bounds in
  [Z.quot (sky_thickness * 0) color_sky_fill_len;
   Z.quot (sky_thickness * 1) color_sky_fill_len;
   Z.quot (sky_thickness * 2) color_sky_fill_len;
   sky_thickness;
   Z.quot sky_thickness 2].

(** The shapes the redraw is expected to leave, written with the module's
    own quantities. *)
Definition sky_band (bounds : GRect) (sky_fill : Z) : Shape :=
  FilledRadial
    (bsky_rect_trim bounds
       (Z.quot (sky_thickness_of bounds * sky_fill) color_sky_fill_len))
    GOvalScaleModeFitCircle
    (to_uint16 (Z.quot (sky_thickness_of bounds) color_sky_fill_len))
    0 TRIG_MAX_ANGLE
    (nth (Z.to_nat sky_fill) color_sky_fill GColorClear).

Definition hour_tick (polar : GRect -> GOvalScaleMode -> Z -> GPoint)
  (bounds : GRect) (hour : Z) : Shape :=
  Line
    (polar (bsky_rect_trim bounds (sky_thickness_of bounds))
       GOvalScaleModeFitCircle (hour_angle hour))
    (polar bounds GOvalScaleModeFitCircle (hour_angle hour))
    GColorBlueMoon
    (if Z.rem hour 3 =? 0 then 3 else 1)
    true.

Definition sun_orbit (bounds : GRect) : GRect :=
  bsky_rect_trim bounds (Z.quot (sky_thickness_of bounds) 2).

Definition sun_diameter (bounds : GRect) : Z :=
  Z.quot (sky_thickness_of bounds * 3) 4.

Definition sun_shapes (polar : GRect -> GOvalScaleMode -> Z -> GPoint)
  (bounds : GRect) (data : BSKY_AnalogData) : list Shape :=
  let sun_center :=
    polar (sun_orbit bounds) GOvalScaleModeFitCircle (sun_angle data) in
  let radius := to_uint16 (Z.quot (sun_diameter bounds) 2) in
  [FilledCircle sun_center radius GColorYellow;
   CircleOutline sun_center radius GColorDarkCandyAppleRed 2].

(** A stand-in for the SDK's polar mapping, to run the model on concrete
    inputs: the centre of the rectangle, whatever the angle. *)
Definition centre_polar (rect : GRect) (_ : GOvalScaleMode) (_ : Z) : GPoint :=
  {| x := rect.(origin).(x) + Z.quot rect.(size).(w) 2;
     y := rect.(origin).(y) + Z.quot rect.(size).(h) 2 |}.

(** A stand-in for [localtime]: UTC, for the times of the first day of the
    epoch. *)
Definition utc_first_day (time : Z) : tm :=
  mk_tm (Z.rem time 60) (Z.rem (Z.quot time 60) 60) (Z.quot time 3600)
        1 0 70 4 0 0.

Definition square (side : Z) : GRect :=
  {| origin := {| x := 0; y := 0 |}; size := {| w := side; h := side |} |}.

Definition at_time (hour minute : Z) : BSKY_AnalogData :=
  mkData 0 (mk_tm 0 minute hour 0 0 0 0 0 0) 0.

Definition some_context : GContext :=
  mkGContext GColorClear GColorClear 1 false.

(** What the specification says of the angle of marker [hour], as a
    check that can be run. *)
Definition hour_angle_check (hour : Z) : bool :=
  (hour_angle hour =?
     (TRIG_MAX_ANGLE / 2 + hour * TRIG_MAX_ANGLE / 24) mod TRIG_MAX_ANGLE)
  && (hour_angle hour =? deg ((180 + hour * 15) mod 360))
  && (let gap := (hour_angle ((hour + 1) mod 24) - hour_angle hour)
                   mod TRIG_MAX_ANGLE in
      (gap =? 2730) || (gap =? 2731)).

(** The stored [sky_thickness] field of the layer at address [l]. *)
Definition sky_thickness_at (s : World) (l : positive) : option Z :=
  (fun L => L.(layer_data).(sky_thickness)) <$> s.(layers) !! l.

(** A world with one analog layer, as a successful creation on the
    180 x 180 frame leaves it. *)
Definition one_layer_world : World :=
  {| handles := {[ 1%positive := mkAnalogLayer (Some 1%positive)
                                   (Some 1%positive) ]};
     layers := {[ 1%positive :=
                    mkLayer (square 180) (square 180)
                      (Some Proc_bsky_analog_layer_update) false zero_data ]} |}.

Definition empty_world : World := {| handles := ∅; layers := ∅ |}.

(** A world as the module's own operations leave it: every handle points to
    a layer that exists and into that layer's data block, every layer is
    owned by a handle, and no two handles share a layer. *)
Definition wf_world (s : World) : Prop :=
  (forall p H, s.(handles) !! p = Some H ->
     exists l, H = mkAnalogLayer (Some l) (Some l) /\
               is_Some (s.(layers) !! l)) /\
  (forall l, is_Some (s.(layers) !! l) ->
     exists p, s.(handles) !! p = Some (mkAnalogLayer (Some l) (Some l))) /\
  (forall p1 p2 l,
     s.(handles) !! p1 = Some (mkAnalogLayer (Some l) (Some l)) ->
     s.(handles) !! p2 = Some (mkAnalogLayer (Some l) (Some l)) ->
     p1 = p2).

(** A world with two analog layers, as two successful creations leave
    it. *)
Definition two_layer_world : World :=
  {| handles := <[ 2%positive := mkAnalogLayer (Some 2%positive)
                                   (Some 2%positive) ]>
                  one_layer_world.(handles);
     layers := <[ 2%positive :=
                    mkLayer (square 144) (square 144)
                      (Some Proc_bsky_analog_layer_update) false zero_data ]>
                 one_layer_world.(layers) |}.

(** Minutes since midnight of a state's local time. *)
Definition minute_of_day (data : BSKY_AnalogData) : Z :=
  60 * data.(wall_time).(tm_hour) + data.(wall_time).(tm_min).

Ltac sys_unfold :=
  unfold bsky_analog_layer_create, bsky_analog_layer_set_time,
    bsky_analog_layer_get_layer, bsky_analog_layer_update,
    bsky_analog_layer_destroy,
    malloc, free, layer_create_with_data, layer_get_data, layer_get_bounds,
    layer_set_update_proc, layer_mark_dirty, layer_destroy, load_layer,
    load_data, store_layer, store_data, read_data, store_unix_time,
    store_wall_time, with_layer, with_handle, put_layer, put_handle,
    mbind, mret, Sys_bind, Sys_ret; cbn.

Ltac div_lia := Z.div_mod_to_equations; lia.
Ltac quot_lia := Z.quot_rem_to_equations; lia.

(** * Properties *)

(** ** Integer conversions *)

Lemma to_int8_fits z : fits_int8 z -> to_int8 z = z.
Proof.
  unfold fits_int8, to_int8, wrap_signed. intros Hz.
  change (2 ^ (8 - 1)) with 128. change (2 ^ 8) with 256.
  rewrite Z.mod_small; lia.
Qed.

Lemma to_int16_fits z : fits_int16 z -> to_int16 z = z.
Proof.
  unfold fits_int16, to_int16, wrap_signed. intros Hz.
  change (2 ^ (16 - 1)) with 32768. change (2 ^ 16) with 65536.
  rewrite Z.mod_small; lia.
Qed.

Lemma to_uint16_fits z : 0 <= z < 65536 -> to_uint16 z = z.
Proof. intros Hz. unfold to_uint16. apply Z.mod_small. simpl. lia. Qed.

Lemma to_int8_range z : fits_int8 (to_int8 z).
Proof.
  unfold fits_int8, to_int8, wrap_signed.
  change (2 ^ (8 - 1)) with 128. change (2 ^ 8) with 256.
  pose proof (Z.mod_pos_bound (z + 128) 256). lia.
Qed.

Lemma to_int8_fixed z : to_int8 z = z -> fits_int8 z.
Proof. intros <-. apply to_int8_range. Qed.

(** [bsky_rect_trim] is the exact inset as long as the inset fits its 8-bit
    parameter and the results fit the 16-bit fields. *)
Lemma bsky_rect_trim_exact rect t :
  fits_int8 t ->
  fits_int16 (rect.(origin).(x) + t) -> fits_int16 (rect.(origin).(y) + t) ->
  fits_int16 (rect.(size).(w) - t * 2) -> fits_int16 (rect.(size).(h) - t * 2) ->
  bsky_rect_trim rect t = rect_inset rect t.
Proof.
  intros Ht Hx Hy Hw Hh. unfold bsky_rect_trim, rect_inset.
  rewrite (to_int8_fits t Ht). by rewrite !to_int16_fits.
Qed.

Lemma plain_region_trim bounds t :
  plain_region bounds -> 0 <= t <= 127 -> t <= shorter_side bounds ->
  bsky_rect_trim bounds t = rect_inset bounds t.
Proof.
  intros (Hb & Hw & Hh & Hx & Hy) Ht Hs.
  destruct Hb as (Hbx & Hby & Hbw & Hbh).
  unfold fits_int16, shorter_side in *.
  apply bsky_rect_trim_exact; unfold fits_int8, fits_int16; lia.
Qed.

Lemma to_int16_cong z : exists k, to_int16 z = z + 65536 * k.
Proof.
  unfold to_int16, wrap_signed.
  change (2 ^ (16 - 1)) with 32768. change (2 ^ 16) with 65536.
  exists (- ((z + 32768) / 65536)). div_lia.
Qed.

Lemma sky_thickness_of_nonneg bounds :
  int16_rect bounds -> 0 <= bounds.(size).(w) -> 0 <= bounds.(size).(h) ->
  sky_thickness_of bounds = shorter_side bounds / 6.
Proof.
  intros (_ & _ & Hbw & Hbh) Hw Hh.
  unfold sky_thickness_of, shorter_side, fits_int16 in *.
  rewrite Z.gtb_ltb.
  destruct (Z.ltb_spec (h (size bounds)) (w (size bounds))).
  - rewrite Z.min_r by lia. rewrite Z.quot_div_nonneg by lia.
    apply to_int16_fits. unfold fits_int16. div_lia.
  - rewrite Z.min_l by lia. rewrite Z.quot_div_nonneg by lia.
    apply to_int16_fits. unfold fits_int16. div_lia.
Qed.

Lemma sky_thickness_of_plain bounds :
  plain_region bounds ->
  sky_thickness_of bounds = shorter_side bounds / 6.
Proof.
  intros (Hb & Hw & Hh & _). by apply sky_thickness_of_nonneg.
Qed.

(** ** The shape of a redraw *)

(** One redraw clears the region, then leaves three radial fills, twenty-four
    lines and the two circles of the sun, in this order, whatever the context
    held before. *)
Lemma render_paint polar ctx bounds data :
  render ctx (trace_of (bsky_analog_layer_paint polar bounds data)) =
  FilledRect bounds GColorClear
  :: (sky_band bounds <$> seqZ 0 3)
  ++ (hour_tick polar bounds <$> seqZ 0 24)
  ++ sun_shapes polar bounds data.
Proof. reflexivity. Qed.

(** The angles handed to [gpoint_from_polar] in one redraw: each hour
    marker's angle twice, then the sun's. *)
Lemma polar_angles_paint polar bounds data :
  polar_angles (trace_of (bsky_analog_layer_paint polar bounds data)) =
  (seqZ 0 24 ≫= fun hour => [hour_angle hour; hour_angle hour])
  ++ [sun_angle data].
Proof. reflexivity. Qed.

Lemma polar_rects_paint polar bounds data :
  polar_rects (trace_of (bsky_analog_layer_paint polar bounds data)) =
  (seqZ 0 24 ≫= fun _ =>
     [bsky_rect_trim bounds (sky_thickness_of bounds); bounds])
  ++ [sun_orbit bounds].
Proof. reflexivity. Qed.

Lemma radials_paint polar ctx bounds data :
  List.filter is_radial
    (render ctx (trace_of (bsky_analog_layer_paint polar bounds data))) =
  sky_band bounds <$> seqZ 0 3.
Proof. reflexivity. Qed.

Lemma lines_paint polar ctx bounds data :
  List.filter is_line
    (render ctx (trace_of (bsky_analog_layer_paint polar bounds data))) =
  hour_tick polar bounds <$> seqZ 0 24.
Proof. reflexivity. Qed.

Lemma circles_paint polar ctx bounds data :
  List.filter is_circle
    (render ctx (trace_of (bsky_analog_layer_paint polar bounds data))) =
  sun_shapes polar bounds data.
Proof. reflexivity. Qed.

(** ** The 8-bit inset of [bsky_rect_trim] *)

Lemma requested_insets_bound bounds t :
  plain_region bounds -> shorter_side bounds <= 767 ->
  In t (requested_insets bounds) -> 0 <= t <= 127 /\ t <= shorter_side bounds.
Proof.
  intros Hp Hm Ht. pose proof (sky_thickness_of_plain bounds Hp) as Hst.
  destruct Hp as (_ & Hw & Hh & _).
  assert (0 <= shorter_side bounds) by (unfold shorter_side; lia).
  assert (0 <= sky_thickness_of bounds <= 127) by (rewrite Hst; div_lia).
  unfold requested_insets, color_sky_fill_len in Ht. simpl in Ht.
  destruct Ht as [<-|[<-|[<-|[<-|[<-|[]]]]]];
    try (rewrite Z.quot_div_nonneg by lia; rewrite Hst; div_lia).
  rewrite Hst. div_lia.
Qed.

(** An inset of 128 or more does not fit the 8-bit parameter: what
    [bsky_rect_trim] returns is not the rectangle shrunk by it. *)
Lemma bsky_rect_trim_truncated rect t :
  128 <= t <= 32767 -> bsky_rect_trim rect t <> rect_inset rect t.
Proof.
  intros Ht He. unfold bsky_rect_trim, rect_inset in He.
  injection He as Hx _ _ _.
  pose proof (to_int8_range t) as Hr. unfold fits_int8 in Hr.
  destruct (to_int16_cong (x (origin rect) + to_int8 t)) as [k Hk].
  lia.
Qed.

Lemma sky_thickness_of_large bounds m :
  int16_rect bounds -> 0 <= m -> m <= shorter_side bounds ->
  sky_thickness_of bounds = shorter_side bounds / 6 /\
  m / 6 <= sky_thickness_of bounds <= 5461.
Proof.
  intros Hb H0 Hm.
  assert (Hst : sky_thickness_of bounds = shorter_side bounds / 6)
    by (apply sky_thickness_of_nonneg; unfold shorter_side in Hm; [done|lia..]).
  split; [exact Hst|]. destruct Hb as (_ & _ & Hbw & Hbh).
  unfold fits_int16, shorter_side in *. rewrite Hst. div_lia.
Qed.

Lemma band_inset_bound bounds i :
  plain_region bounds -> shorter_side bounds <= 1151 -> 0 <= i <= 2 ->
  let t := Z.quot (sky_thickness_of bounds * i) color_sky_fill_len in
  t = shorter_side bounds / 6 * i / 3 /\
  0 <= t <= 127 /\ t <= shorter_side bounds.
Proof.
  intros Hp Hm Hi t. pose proof (sky_thickness_of_plain bounds Hp) as Hst.
  assert (0 <= shorter_side bounds)
    by (destruct Hp as (_ & ? & ? & _); unfold shorter_side; lia).
  assert (0 <= sky_thickness_of bounds <= 191) by (rewrite Hst; div_lia).
  unfold t, color_sky_fill_len. simpl (Z.of_nat _).
  assert (Hc : i = 0 \/ i = 1 \/ i = 2) by lia.
  destruct Hc as [-> | [-> | ->]];
    rewrite Z.quot_div_nonneg by lia; rewrite Hst; div_lia.
Qed.

(** C10 (as amended): [bsky_rect_trim] takes its inset as an 8-bit signed
    integer.  For every region with non-negative sides that lies within the
    16-bit coordinate range and has a shorter side of at most 767, each
    inset the redraw requests fits the 8-bit parameter and the trimmed
    rectangle is the bounds shrunk by exactly that inset on each side.
    Beyond that each geometry equation has its own limit: for every region
    whose shorter side is 768 or more the full-thickness inset of the hour
    markers does not fit, 8 bits of it are applied, and the trimmed
    rectangle is not the bounds shrunk by [sky_thickness]; the band insets
    are applied exactly up to a shorter side of 1151 and the innermost one
    is not from 1152 on; the inset of the sun's orbit is applied exactly up
    to a shorter side of 1535 and is not from 1536 on. *)
Theorem bsky_rect_trim_size_precondition bounds :
  int16_rect bounds ->
  (plain_region bounds -> shorter_side bounds <= 767 ->
   forall t, In t (requested_insets bounds) ->
     fits_int8 t /\ to_int8 t = t /\
     bsky_rect_trim bounds t = rect_inset bounds t)
  /\
  (768 <= shorter_side bounds ->
   sky_thickness_of bounds = shorter_side bounds / 6 /\
   ~ fits_int8 (sky_thickness_of bounds) /\
   to_int8 (sky_thickness_of bounds) <> sky_thickness_of bounds /\
   bsky_rect_trim bounds (sky_thickness_of bounds)
   <> rect_inset bounds (sky_thickness_of bounds))
  /\
  (plain_region bounds -> shorter_side bounds <= 1151 ->
   forall sky_fill, 0 <= sky_fill <= 2 ->
     let t := Z.quot (sky_thickness_of bounds * sky_fill)
                color_sky_fill_len in
     fits_int8 t /\ bsky_rect_trim bounds t = rect_inset bounds t)
  /\
  (1152 <= shorter_side bounds ->
   let t := Z.quot (sky_thickness_of bounds * 2) color_sky_fill_len in
   ~ fits_int8 t /\ bsky_rect_trim bounds t <> rect_inset bounds t)
  /\
  (plain_region bounds -> shorter_side bounds <= 1535 ->
   let t := Z.quot (sky_thickness_of bounds) 2 in
   fits_int8 t /\ bsky_rect_trim bounds t = rect_inset bounds t)
  /\
  (1536 <= shorter_side bounds ->
   let t := Z.quot (sky_thickness_of bounds) 2 in
   ~ fits_int8 t /\ bsky_rect_trim bounds t <> rect_inset bounds t).
Proof.
  intros Hb. split; [|split; [|split; [|split; [|split]]]].
  - intros Hp Hm t Ht.
    pose proof (requested_insets_bound bounds t Hp Hm Ht) as [Hr Hs].
    assert (fits_int8 t) by (unfold fits_int8; lia).
    repeat split; try (unfold fits_int8 in *; lia).
    + by apply to_int8_fits.
    + by apply plain_region_trim.
  - intros Hm.
    destruct (sky_thickness_of_large bounds 768 Hb) as [Hst Hlo];
      [lia | done |]. change (768 / 6) with 128 in Hlo.
    assert (Hnf : ~ fits_int8 (sky_thickness_of bounds))
      by (unfold fits_int8; lia).
    assert (Hne : to_int8 (sky_thickness_of bounds) <> sky_thickness_of bounds)
      by (intros He; apply Hnf, to_int8_fixed, He).
    repeat split; try done. apply bsky_rect_trim_truncated. lia.
  - intros Hp Hm i Hi t.
    destruct (band_inset_bound bounds i Hp Hm Hi) as (_ & Hr & Hs).
    fold t in Hr, Hs. split; [unfold fits_int8; lia|].
    by apply plain_region_trim.
  - intros Hm t.
    destruct (sky_thickness_of_large bounds 1152 Hb) as [_ Hlo];
      [lia | done |]. change (1152 / 6) with 192 in Hlo.
    assert (128 <= t <= 32767)
      by (unfold t, color_sky_fill_len; simpl (Z.of_nat _); quot_lia).
    split; [unfold fits_int8; lia | by apply bsky_rect_trim_truncated].
  - intros Hp Hm t. pose proof (sky_thickness_of_plain bounds Hp) as Hst.
    assert (0 <= shorter_side bounds)
      by (destruct Hp as (_ & ? & ? & _); unfold shorter_side; lia).
    assert (0 <= t <= 127 /\ t <= shorter_side bounds) as [Hr Hs]
      by (unfold t; rewrite Hst; rewrite Z.quot_div_nonneg by div_lia;
          div_lia).
    split; [unfold fits_int8; lia | by apply plain_region_trim].
  - intros Hm t.
    destruct (sky_thickness_of_large bounds 1536 Hb) as [_ Hlo];
      [lia | done |]. change (1536 / 6) with 256 in Hlo.
    assert (128 <= t <= 32767) by (unfold t; quot_lia).
    split; [unfold fits_int8; lia | by apply bsky_rect_trim_truncated].
Qed.

Lemma bsky_rect_trim_size_precondition_witness :
  bsky_rect_trim (square 180) 30 = rect_inset (square 180) 30 /\
  bsky_rect_trim (square 1200) (sky_thickness_of (square 1200))
  <> rect_inset (square 1200) (sky_thickness_of (square 1200)) /\
  bsky_rect_trim (square 1000) 83 = rect_inset (square 1000) 83.
Proof.
  assert (H180 : int16_rect (square 180))
    by (unfold int16_rect, fits_int16; simpl; lia).
  assert (H1200 : int16_rect (square 1200))
    by (unfold int16_rect, fits_int16; simpl; lia).
  assert (H1000 : int16_rect (square 1000))
    by (unfold int16_rect, fits_int16; simpl; lia).
  split; [|split].
  - apply (proj1 (bsky_rect_trim_size_precondition (square 180) H180)).
    + unfold plain_region, int16_rect, fits_int16. simpl. lia.
    + vm_compute. discriminate.
    + vm_compute. tauto.
  - apply (proj1 (proj2 (bsky_rect_trim_size_precondition (square 1200)
                           H1200))).
    vm_compute. discriminate.
  - apply (proj1 (proj2 (proj2 (proj2 (proj2
             (bsky_rect_trim_size_precondition (square 1000) H1000)))))).
    + unfold plain_region, int16_rect, fits_int16. simpl. lia.
    + vm_compute. discriminate.
Defined.

(** C10 (as stated) fails at a 763 x 763 region: its shorter side is above
    762, yet [sky_thickness] is 127 and every inset the redraw requests is
    applied unchanged.  It fails again at a 1000 x 1000 region, above any
    such limit for the full thickness, where the band insets 0, 55 and 110
    and the orbit inset 83 are still applied unchanged: the band and orbit
    equations do not depend on the limit of the hour markers. *)
Lemma trim_exact_at_763 :
  762 < shorter_side (square 763) /\
  requested_insets (square 763) = [0; 42; 84; 127; 63] /\
  Forall (fun t => to_int8 t = t /\
                   bsky_rect_trim (square 763) t = rect_inset (square 763) t)
         (requested_insets (square 763)) /\
  requested_insets (square 1000) = [0; 55; 110; 166; 83] /\
  Forall (fun t => to_int8 t = t /\
                   bsky_rect_trim (square 1000) t = rect_inset (square 1000) t)
         [0; 55; 110; 83].
Proof.
  assert (E : requested_insets (square 763) = [0; 42; 84; 127; 63])
    by reflexivity.
  split; [vm_compute; reflexivity|]. split; [exact E|]. rewrite E.
  split; [repeat (constructor; [split; vm_compute; reflexivity|]);
          constructor|].
  split; [reflexivity|].
  repeat (constructor; [split; vm_compute; reflexivity|]). constructor.
Qed.

(** ** The sky bands *)

Lemma rect_inset_0 rect : rect_inset rect 0 = rect.
Proof.
  destruct rect as [[ox oy] [sw sh]]. unfold rect_inset. simpl.
  by rewrite !Z.add_0_r, !Z.sub_0_r.
Qed.

Lemma sky_band_plain bounds i :
  plain_region bounds -> shorter_side bounds <= 767 -> 0 <= i <= 2 ->
  sky_band bounds i =
  FilledRadial (rect_inset bounds (shorter_side bounds / 6 * i / 3))
    GOvalScaleModeFitCircle (shorter_side bounds / 6 / 3) 0 TRIG_MAX_ANGLE
    (nth (Z.to_nat i) color_sky_fill GColorClear).
Proof.
  intros Hp Hm Hi. pose proof (sky_thickness_of_plain bounds Hp) as Hst.
  assert (0 <= shorter_side bounds)
    by (destruct Hp as (_ & ? & ? & _); unfold shorter_side; lia).
  assert (0 <= sky_thickness_of bounds <= 127) by (rewrite Hst; div_lia).
  unfold sky_band, color_sky_fill_len. simpl (Z.of_nat _).
  assert (Hc : i = 0 \/ i = 1 \/ i = 2) by lia.
  destruct Hc as [-> | [-> | ->]];
    rewrite !Z.quot_div_nonneg by lia;
    rewrite plain_region_trim by (try done; rewrite ?Hst; div_lia);
    rewrite to_uint16_fits by div_lia; by rewrite Hst.
Qed.

Lemma sky_band_exact bounds i :
  plain_region bounds -> shorter_side bounds <= 1151 -> 0 <= i <= 2 ->
  sky_band bounds i =
  FilledRadial (rect_inset bounds (shorter_side bounds / 6 * i / 3))
    GOvalScaleModeFitCircle (shorter_side bounds / 6 / 3) 0 TRIG_MAX_ANGLE
    (nth (Z.to_nat i) color_sky_fill GColorClear).
Proof.
  intros Hp Hm Hi. pose proof (sky_thickness_of_plain bounds Hp) as Hst.
  assert (0 <= shorter_side bounds)
    by (destruct Hp as (_ & ? & ? & _); unfold shorter_side; lia).
  destruct (band_inset_bound bounds i Hp Hm Hi) as (Ht & Hr & Hs).
  unfold sky_band. rewrite plain_region_trim by done. rewrite Ht.
  unfold color_sky_fill_len. simpl (Z.of_nat _).
  rewrite Hst. rewrite Z.quot_div_nonneg by div_lia.
  by rewrite to_uint16_fits by div_lia.
Qed.

(** C3 (as amended): for every region with non-negative sides that lies
    within the 16-bit coordinate range and has a shorter side between 18 and
    1151, the redraw draws exactly three radial fills with
    [sky_thickness = min(width,height)/6]: band [i] is drawn in the
    rectangle inset by [sky_thickness*i/3] from the bounds (band 0 in the
    bounds themselves), over the full sweep from 0 to one full turn, as a
    ring of thickness [sky_thickness/3] measured from the outer edge that
    stops short of the centre, in the colours cyan, electric blue, celeste
    from the outside in; the radii of the circles fitted into the three
    rectangles decrease strictly. *)
Theorem sky_bands_of_plain_region polar ctx bounds data :
  plain_region bounds -> 18 <= shorter_side bounds <= 1151 ->
  let thickness := shorter_side bounds / 6 in
  let band i := rect_inset bounds (thickness * i / 3) in
  sky_thickness_of bounds = thickness /\
  List.filter is_radial
    (render ctx (trace_of (bsky_analog_layer_paint polar bounds data))) =
  [FilledRadial (band 0) GOvalScaleModeFitCircle (thickness / 3)
     0 TRIG_MAX_ANGLE GColorCyan;
   FilledRadial (band 1) GOvalScaleModeFitCircle (thickness / 3)
     0 TRIG_MAX_ANGLE GColorElectricBlue;
   FilledRadial (band 2) GOvalScaleModeFitCircle (thickness / 3)
     0 TRIG_MAX_ANGLE GColorCeleste] /\
  band 0 = bounds /\
  fit_circle_radius (band 2) < fit_circle_radius (band 1)
                             < fit_circle_radius (band 0) /\
  0 < thickness / 3 < fit_circle_radius (band 2).
Proof.
  intros Hp [Hlo Hhi] thickness band.
  split; [by apply sky_thickness_of_plain|]. split.
  - rewrite radials_paint.
    change (seqZ 0 3) with [0; 1; 2]. simpl fmap.
    by rewrite !sky_band_exact by (try done; lia).
  - split.
    + unfold band. rewrite Z.mul_0_r. change (0 / 3) with 0.
      apply rect_inset_0.
    + destruct Hp as (_ & Hw & Hh & _).
      unfold band, thickness, fit_circle_radius, rect_inset; simpl.
      fold (shorter_side bounds) in *.
      rewrite !Z.sub_min_distr_r. fold (shorter_side bounds).
      rewrite !Z.quot_div_nonneg by div_lia. div_lia.
Qed.

Lemma sky_bands_of_plain_region_witness :
  List.filter is_radial
    (render some_context
       (trace_of (bsky_analog_layer_paint centre_polar (square 1151)
                    (at_time 12 0)))) =
  [FilledRadial (square 1151) GOvalScaleModeFitCircle 63 0 TRIG_MAX_ANGLE
     GColorCyan;
   FilledRadial (rect_inset (square 1151) 63) GOvalScaleModeFitCircle 63
     0 TRIG_MAX_ANGLE GColorElectricBlue;
   FilledRadial (rect_inset (square 1151) 127) GOvalScaleModeFitCircle 63
     0 TRIG_MAX_ANGLE GColorCeleste].
Proof.
  assert (Hp : plain_region (square 1151))
    by (unfold plain_region, int16_rect, fits_int16; simpl; lia).
  assert (Hs : 18 <= shorter_side (square 1151) <= 1151)
    by (vm_compute; split; discriminate).
  exact (proj1 (proj2 (sky_bands_of_plain_region centre_polar some_context
                         (square 1151) (at_time 12 0) Hp Hs))).
Defined.

(** C3 (as stated) fails at a 12 x 12 region: [sky_thickness] is 2, the
    insets are 0, 0 and 1, so the second band is drawn in the same rectangle
    as the first and its radius, 6, is not smaller; the inset thickness of
    every band is 0, so that none of them is a filled disc either.  It
    fails at a 1152 x 1152 region too: [sky_thickness] is 192, the inset 128
    of the innermost band does not fit [int8_t], and that band is drawn in
    a rectangle larger than the bounds, of radius 704 against the 512 of
    the band before it. *)
Lemma sky_bands_coincide_at_12 :
  List.filter is_radial
    (render some_context
       (trace_of (bsky_analog_layer_paint centre_polar (square 12)
                    (at_time 12 0)))) =
  [FilledRadial (square 12) GOvalScaleModeFitCircle 0 0 TRIG_MAX_ANGLE
     GColorCyan;
   FilledRadial (square 12) GOvalScaleModeFitCircle 0 0 TRIG_MAX_ANGLE
     GColorElectricBlue;
   FilledRadial (rect_inset (square 12) 1) GOvalScaleModeFitCircle 0
     0 TRIG_MAX_ANGLE GColorCeleste] /\
  fit_circle_radius (square 12) = 6 /\
  fit_circle_radius (rect_inset (square 12) 1) = 5 /\
  ~ fit_circle_radius (square 12) < fit_circle_radius (square 12) /\
  List.filter is_radial
    (render some_context
       (trace_of (bsky_analog_layer_paint centre_polar (square 1152)
                    (at_time 12 0)))) =
  [FilledRadial (square 1152) GOvalScaleModeFitCircle 64 0 TRIG_MAX_ANGLE
     GColorCyan;
   FilledRadial (rect_inset (square 1152) 64) GOvalScaleModeFitCircle 64
     0 TRIG_MAX_ANGLE GColorElectricBlue;
   FilledRadial (rect_inset (square 1152) (-128)) GOvalScaleModeFitCircle 64
     0 TRIG_MAX_ANGLE GColorCeleste] /\
  192 * 2 / 3 = 128 /\
  fit_circle_radius (rect_inset (square 1152) 64) = 512 /\
  fit_circle_radius (rect_inset (square 1152) (-128)) = 704.
Proof. repeat split; try reflexivity. lia. Qed.

(** ** The sun *)

(** C4 (as amended): for every state and every region with non-negative
    sides that lies within the 16-bit coordinate range and has a shorter
    side of at most 1535, the redraw
    asks for the sun's centre on the oval of the bounds inset by
    [sky_thickness/2] on each side at the sun's angle, fills there a circle
    whose radius is half of the diameter [sky_thickness*3/4] (integer
    divisions) in yellow and outlines it with stroke width 2; for a
    (0,0,180,180) region [sky_thickness] is 30, the orbit rectangle is the
    bounds inset by 15 and the diameter is 22. *)
Theorem sun_of_plain_region polar ctx bounds data :
  plain_region bounds -> shorter_side bounds <= 1535 ->
  let thickness := shorter_side bounds / 6 in
  let orbit := rect_inset bounds (thickness / 2) in
  let diameter := thickness * 3 / 4 in
  let centre := polar orbit GOvalScaleModeFitCircle (sun_angle data) in
  let trace := trace_of (bsky_analog_layer_paint polar bounds data) in
  sky_thickness_of bounds = thickness /\
  last (polar_rects trace) = Some orbit /\
  last (polar_angles trace) = Some (sun_angle data) /\
  List.filter is_circle (render ctx trace) =
  [FilledCircle centre (diameter / 2) GColorYellow;
   CircleOutline centre (diameter / 2) GColorDarkCandyAppleRed 2] /\
  sky_thickness_of (square 180) = 30 /\
  sun_orbit (square 180) = rect_inset (square 180) 15 /\
  sun_diameter (square 180) = 22.
Proof.
  intros Hp Hm thickness orbit diameter centre trace.
  pose proof (sky_thickness_of_plain bounds Hp) as Hst.
  fold thickness in Hst.
  assert (0 <= shorter_side bounds)
    by (destruct Hp as (_ & ? & ? & _); unfold shorter_side; lia).
  assert (Ht : 0 <= thickness <= 255) by (unfold thickness; div_lia).
  assert (Ho : sun_orbit bounds = orbit).
  { unfold sun_orbit, orbit. rewrite Hst.
    rewrite Z.quot_div_nonneg by lia.
    apply plain_region_trim; [done | div_lia | unfold thickness; div_lia]. }
  assert (Hr : to_uint16 (Z.quot (sun_diameter bounds) 2) = diameter / 2).
  { unfold sun_diameter, diameter. rewrite Hst.
    rewrite (Z.quot_div_nonneg (thickness * 3) 4) by lia.
    rewrite Z.quot_div_nonneg by div_lia.
    apply to_uint16_fits. div_lia. }
  split; [done|]. split.
  { unfold trace. rewrite polar_rects_paint, last_snoc. by rewrite Ho. }
  split.
  { unfold trace. rewrite polar_angles_paint. apply last_snoc. }
  split.
  { unfold trace. rewrite circles_paint. unfold sun_shapes.
    rewrite Ho, Hr. reflexivity. }
  repeat split; reflexivity.
Qed.

Lemma sun_of_plain_region_witness :
  List.filter is_circle
    (render some_context
       (trace_of (bsky_analog_layer_paint centre_polar (square 180)
                    (at_time 12 0)))) =
  [FilledCircle (mkGPoint 90 90) 11 GColorYellow;
   CircleOutline (mkGPoint 90 90) 11 GColorDarkCandyAppleRed 2].
Proof.
  assert (Hp : plain_region (square 180))
    by (unfold plain_region, int16_rect, fits_int16; simpl; lia).
  assert (Hs : shorter_side (square 180) <= 1535)
    by (vm_compute; discriminate).
  exact (proj1 (proj2 (proj2 (proj2
    (sun_of_plain_region centre_polar some_context (square 180)
       (at_time 12 0) Hp Hs))))).
Defined.

(** C4 (as stated) fails at a 1536 x 1536 region: [sky_thickness] is 256,
    the inset 128 does not fit [int8_t], and the sun's centre is asked for
    on the oval of a rectangle larger than the bounds instead of the bounds
    inset by 128. *)
Lemma sun_orbit_outside_at_1536 :
  sky_thickness_of (square 1536) = 256 /\
  last (polar_rects
          (trace_of (bsky_analog_layer_paint centre_polar (square 1536)
                       (at_time 12 0)))) =
  Some {| origin := {| x := -128; y := -128 |};
          size := {| w := 1792; h := 1792 |} |} /\
  rect_inset (square 1536) (256 / 2) =
  {| origin := {| x := 128; y := 128 |};
     size := {| w := 1280; h := 1280 |} |}.
Proof. repeat split; reflexivity. Qed.

(** ** The hour markers *)

Lemma hour_angle_reduced hour :
  0 <= hour -> 0 <= hour_angle hour < TRIG_MAX_ANGLE.
Proof.
  intros Hh. unfold hour_angle, midnight_angle, TRIG_MAX_ANGLE.
  change (Z.quot 65536 2) with 32768. quot_lia.
Qed.

Lemma hour_angle_table :
  hour_angle <$> seqZ 0 24 =
  [32768; 35498; 38229; 40960; 43690; 46421; 49152; 51882; 54613; 57344;
   60074; 62805; 0; 2730; 5461; 8192; 10922; 13653; 16384; 19114; 21845;
   24576; 27306; 30037].
Proof. reflexivity. Qed.

Lemma hour_angle_checked hour :
  0 <= hour < 24 -> hour_angle_check hour = true.
Proof.
  intros Hh.
  assert (Hall : forallb hour_angle_check (seqZ 0 24) = true)
    by (vm_compute; reflexivity).
  rewrite forallb_forall in Hall. apply Hall.
  apply list_elem_of_In, elem_of_seqZ. lia.
Qed.

(** C2 (as amended): for every region, the redraw draws exactly 24
    hour-marker lines, one per index 0..23 in this order; the angle of
    marker [hour] is [(half_turn + hour*full_turn/24) mod full_turn], that
    is (180 + 15 hour) mod 360 degrees rounded down to the angle unit, so
    that the markers are evenly spaced up to that rounding: neighbouring
    markers, the last and the first included, are 2730 or 2731 units apart
    and no two coincide; each marker is a line from the point at that angle
    of the oval of the rectangle that [bsky_rect_trim] returns for
    [sky_thickness] to the point of the bounds' oval at the same angle,
    smoothed, in the sky's stroke colour; markers with [hour mod 3 = 0]
    have stroke width 3 and the others stroke width 1.  For every region
    with non-negative sides that lies within the 16-bit coordinate range
    and has a shorter side of at most 767, that rectangle is the bounds
    inset by [sky_thickness = min(width,height)/6] on each side; for every
    region whose shorter side is 768 or more it is not. *)
Theorem hour_markers_of_redraw polar ctx bounds data :
  let lines :=
    List.filter is_line
      (render ctx (trace_of (bsky_analog_layer_paint polar bounds data))) in
  let sky_inset := bsky_rect_trim bounds (sky_thickness_of bounds) in
  lines =
    (fun hour =>
       Line (polar sky_inset GOvalScaleModeFitCircle (hour_angle hour))
            (polar bounds GOvalScaleModeFitCircle (hour_angle hour))
            GColorBlueMoon (if hour mod 3 =? 0 then 3 else 1) true)
    <$> seqZ 0 24 /\
  length lines = 24%nat /\
  (forall hour, 0 <= hour < 24 ->
     hour_angle hour =
       (TRIG_MAX_ANGLE / 2 + hour * TRIG_MAX_ANGLE / 24) mod TRIG_MAX_ANGLE /\
     hour_angle hour = deg ((180 + hour * 15) mod 360) /\
     0 <= hour_angle hour < TRIG_MAX_ANGLE /\
     let gap := (hour_angle ((hour + 1) mod 24) - hour_angle hour)
                  mod TRIG_MAX_ANGLE in
     gap = 2730 \/ gap = 2731) /\
  NoDup (hour_angle <$> seqZ 0 24) /\
  (plain_region bounds -> shorter_side bounds <= 767 ->
   sky_inset = rect_inset bounds (shorter_side bounds / 6)) /\
  (int16_rect bounds -> 768 <= shorter_side bounds ->
   sky_inset <> rect_inset bounds (shorter_side bounds / 6)).
Proof.
  intros lines sky_inset. split; [reflexivity|]. split; [reflexivity|].
  split; [|split; [|split]].
  - intros hour Hh. pose proof (hour_angle_checked hour Hh) as Hc.
    unfold hour_angle_check in Hc.
    apply andb_prop in Hc as [Hc Hgap]. apply andb_prop in Hc as [Hf Hd].
    apply Z.eqb_eq in Hf, Hd. apply orb_prop in Hgap.
    repeat split; try done; try (apply hour_angle_reduced; lia).
    destruct Hgap as [Hg | Hg]; apply Z.eqb_eq in Hg; [by left | by right].
  - rewrite hour_angle_table. apply (bool_decide_unpack _). by vm_compute.
  - intros Hp Hm. unfold sky_inset.
    pose proof (sky_thickness_of_plain bounds Hp) as Hst.
    assert (0 <= shorter_side bounds)
      by (destruct Hp as (_ & ? & ? & _); unfold shorter_side; lia).
    rewrite Hst. apply plain_region_trim; [done | div_lia | div_lia].
  - intros Hb Hm. unfold sky_inset.
    destruct (sky_thickness_of_large bounds 768 Hb) as [Hst Hlo];
      [lia | done |]. change (768 / 6) with 128 in Hlo.
    rewrite <- Hst. apply bsky_rect_trim_truncated. lia.
Qed.

Lemma hour_markers_of_redraw_witness :
  bsky_rect_trim (square 180) (sky_thickness_of (square 180))
  = rect_inset (square 180) 30 /\
  bsky_rect_trim (square 1200) (sky_thickness_of (square 1200))
  <> rect_inset (square 1200) 200.
Proof.
  pose proof (hour_markers_of_redraw centre_polar some_context (square 180)
                (at_time 12 0)) as (_ & _ & _ & _ & H180 & _).
  pose proof (hour_markers_of_redraw centre_polar some_context (square 1200)
                (at_time 12 0)) as (_ & _ & _ & _ & _ & H1200).
  split.
  - apply H180.
    + unfold plain_region, int16_rect, fits_int16. simpl. lia.
    + vm_compute. discriminate.
  - apply H1200.
    + unfold int16_rect, fits_int16. simpl. lia.
    + vm_compute. discriminate.
Defined.

(** C2 (as stated) fails between the first three markers: the first gap is
    2730 units and the second 2731, so the markers are not exactly evenly
    spaced.  It fails at a 1200 x 1200 region too: [sky_thickness] is 200,
    which reads as -56 in 8 bits, and the markers start on the oval of a
    rectangle larger than the bounds instead of the bounds inset by 200. *)
Lemma hour_markers_uneven :
  hour_angle 1 - hour_angle 0 = 2730 /\
  hour_angle 2 - hour_angle 1 = 2731 /\
  hour_angle 1 - hour_angle 0 <> hour_angle 2 - hour_angle 1 /\
  sky_thickness_of (square 1200) = 200 /\
  head (polar_rects
          (trace_of (bsky_analog_layer_paint centre_polar (square 1200)
                       (at_time 12 0)))) =
  Some {| origin := {| x := -56; y := -56 |};
          size := {| w := 1312; h := 1312 |} |} /\
  rect_inset (square 1200) 200 =
  {| origin := {| x := 200; y := 200 |};
     size := {| w := 800; h := 800 |} |}.
Proof. repeat split; vm_compute; congruence. Qed.

(** ** The sun's angle *)

Lemma sun_angle_range data :
  0 <= data.(wall_time).(tm_hour) <= 23 ->
  0 <= data.(wall_time).(tm_min) <= 59 ->
  TRIG_MAX_ANGLE / 2 <= sun_angle data < TRIG_MAX_ANGLE / 2 + TRIG_MAX_ANGLE.
Proof.
  intros Hh Hm. unfold sun_angle, midnight_angle, TRIG_MAX_ANGLE.
  change (Z.quot 65536 2) with 32768. change (65536 / 2) with 32768.
  change (24 * 60) with 1440. quot_lia.
Qed.

(** From noon on the sun's angle is one full turn or more. *)
Lemma sun_angle_afternoon data :
  12 <= data.(wall_time).(tm_hour) <= 23 ->
  0 <= data.(wall_time).(tm_min) <= 59 ->
  TRIG_MAX_ANGLE <= sun_angle data.
Proof.
  intros Hh Hm. unfold sun_angle, midnight_angle, TRIG_MAX_ANGLE.
  change (Z.quot 65536 2) with 32768. change (24 * 60) with 1440. quot_lia.
Qed.

(** What lines 125 to 127 compute for a local hour 0..23 and minute 0..59:
    half a full turn + full_turn*hour/24 + full_turn*minute/1440, in integer
    arithmetic that stays within 32 bits, handed to the polar mapping as it
    is; the values at the times the specification names. *)
Theorem sun_angle_of_wall_time polar bounds data :
  let hour := data.(wall_time).(tm_hour) in
  let minute := data.(wall_time).(tm_min) in
  0 <= hour <= 23 -> 0 <= minute <= 59 ->
  let angle := TRIG_MAX_ANGLE / 2 + TRIG_MAX_ANGLE * hour / 24
               + TRIG_MAX_ANGLE * minute / 1440 in
  sun_angle data = angle /\
  last (polar_angles (trace_of (bsky_analog_layer_paint polar bounds data)))
  = Some angle /\
  fits_int32 (TRIG_MAX_ANGLE * hour) /\ fits_int32 (TRIG_MAX_ANGLE * minute) /\
  fits_int32 angle /\
  (hour = 0 -> minute = 0 -> angle = deg 180) /\
  (hour = 6 -> minute = 0 -> angle = deg 270) /\
  (hour = 12 -> minute = 0 ->
   angle = deg 360 /\ angle mod TRIG_MAX_ANGLE = deg 0) /\
  (hour = 18 -> minute = 0 -> angle mod TRIG_MAX_ANGLE = deg 90) /\
  (hour = 0 -> minute = 30 -> angle = deg 180 + decideg 75).
Proof.
  intros hour minute Hh Hm angle.
  assert (Ha : sun_angle data = angle).
  { unfold sun_angle, angle, midnight_angle. fold hour minute.
    unfold TRIG_MAX_ANGLE. change (24 * 60) with 1440.
    rewrite !Z.quot_div_nonneg by lia. reflexivity. }
  split; [exact Ha|]. split.
  { rewrite polar_angles_paint, last_snoc. by rewrite Ha. }
  unfold angle, fits_int32, TRIG_MAX_ANGLE.
  repeat match goal with |- _ /\ _ => split end;
    try div_lia; intros -> ->; try split; reflexivity.
Qed.

Lemma sun_angle_of_wall_time_witness :
  sun_angle (at_time 18 0) mod TRIG_MAX_ANGLE = deg 90 /\
  sun_angle (at_time 0 30) = deg 180 + decideg 75.
Proof.
  assert (H18 : 0 <= 18 <= 23) by lia. assert (H0 : 0 <= 0 <= 59) by lia.
  assert (H00 : 0 <= 0 <= 23) by lia. assert (H30 : 0 <= 30 <= 59) by lia.
  pose proof (sun_angle_of_wall_time centre_polar (square 180) (at_time 18 0)
                H18 H0) as (E18 & _ & _ & _ & _ & _ & _ & _ & A18 & _).
  pose proof (sun_angle_of_wall_time centre_polar (square 180) (at_time 0 30)
                H00 H30) as (E30 & _ & _ & _ & _ & _ & _ & _ & _ & A30).
  split.
  - rewrite E18. apply A18; reflexivity.
  - rewrite E30. apply A30; reflexivity.
Defined.


(** ** Angles handed to the polar mapping *)

(** C5 (code bug): at 12:00 on a 180 x 180 region the 48 marker angles
    handed to [gpoint_from_polar] lie in [0, full_turn), having been
    reduced with [% TRIG_MAX_ANGLE], but the sun's angle, the 49th and
    last, is handed over as 65536, one full turn, which does not. *)
Theorem sun_angle_unreduced_at_noon :
  let angles :=
    polar_angles
      (trace_of (bsky_analog_layer_paint centre_polar (square 180)
                   (at_time 12 0))) in
  length angles = 49%nat /\
  Forall (fun a => 0 <= a < TRIG_MAX_ANGLE) (take 48 angles) /\
  last angles = Some 65536 /\
  ~ (0 <= 65536 < TRIG_MAX_ANGLE).
Proof.
  intros angles. split; [reflexivity|]. split; [|split].
  - apply (bool_decide_unpack _). by vm_compute.
  - reflexivity.
  - unfold TRIG_MAX_ANGLE. lia.
Qed.

(** ** Creation *)

Lemma fresh_handle (s : World) : s.(handles) !! fresh (dom s.(handles)) = None.
Proof. apply not_elem_of_dom, is_fresh. Qed.
Lemma fresh_layer (s : World) : s.(layers) !! fresh (dom s.(layers)) = None.
Proof. apply not_elem_of_dom, is_fresh. Qed.

Lemma create_no_handle_mem layer_mem frame s :
  bsky_analog_layer_create false layer_mem frame s = Some (None, s).
Proof. reflexivity. Qed.

Lemma create_no_layer_mem frame s :
  bsky_analog_layer_create true false frame s = Some (None, s).
Proof.
  sys_unfold.
  repeat (first [ rewrite lookup_insert_eq | rewrite insert_insert_eq
                | rewrite delete_insert_id by apply fresh_handle ]; cbn).
  by destruct s.
Qed.

Lemma create_success frame s :
  let p := fresh (dom s.(handles)) in
  let l := fresh (dom s.(layers)) in
  bsky_analog_layer_create true true frame s =
  Some (Some p,
        {| handles := <[p := mkAnalogLayer (Some l) (Some l)]> s.(handles);
           layers := <[l := mkLayer frame frame
                               (Some Proc_bsky_analog_layer_update) false
                               zero_data]> s.(layers) |}).
Proof.
  intros p l. sys_unfold. fold p l.
  repeat (rewrite ?lookup_insert_eq, ?insert_insert_eq; cbn).
  reflexivity.
Qed.

Lemma set_time_live localtime s p l L time :
  s.(handles) !! p = Some (mkAnalogLayer (Some l) (Some l)) ->
  s.(layers) !! l = Some L ->
  bsky_analog_layer_set_time localtime p time s =
  Some (tt, {| handles := s.(handles);
               layers := <[l := mkLayer L.(layer_frame) L.(layer_bounds)
                                   L.(layer_update_proc) true
                                   (mkData time (localtime time)
                                      L.(layer_data).(sky_thickness))]>
                           s.(layers) |}).
Proof.
  intros Hp Hl. sys_unfold. rewrite Hp. cbn. rewrite Hl. cbn. rewrite Hp. cbn.
  repeat (rewrite ?lookup_insert_eq, ?insert_insert_eq, ?Hp; cbn).
  reflexivity.
Qed.

Lemma update_live polar s l L :
  s.(layers) !! l = Some L ->
  bsky_analog_layer_update polar (Some l) s =
  Some (trace_of (bsky_analog_layer_paint polar L.(layer_bounds) L.(layer_data)), s).
Proof.
  intros Hl. sys_unfold. rewrite Hl. cbn. rewrite Hl. cbn. rewrite Hl. reflexivity.
Qed.

(** Destroying what was just created gives back the world as it was. *)
Lemma destroy_after_create frame s p s' :
  bsky_analog_layer_create true true frame s = Some (Some p, s') ->
  bsky_analog_layer_destroy p s' = Some (tt, s).
Proof.
  rewrite create_success. intros [= <- <-]. sys_unfold.
  repeat (first [ rewrite lookup_insert_eq | rewrite insert_insert_eq
                | rewrite delete_insert_id by apply fresh_handle
                | rewrite delete_insert_id by apply fresh_layer ]; cbn).
  by destruct s.
Qed.

(** C6: creation never runs into undefined behaviour; it returns [NULL]
    exactly when one of its two allocations (the handle, then the layer with
    its data block) is refused, and then the world is what it was before,
    the handle allocated first having been freed; otherwise it returns the
    address of a fresh handle that points to a fresh layer of the given frame
    and into that layer's data block, and the layer has the redraw callback
    registered; nothing else has changed. *)
Theorem create_outcomes handle_mem layer_mem frame s :
  exists r s',
    bsky_analog_layer_create handle_mem layer_mem frame s = Some (r, s') /\
    (r = None <-> handle_mem = false \/ layer_mem = false) /\
    (r = None -> s' = s) /\
    (forall p, r = Some p ->
       exists l,
         s.(handles) !! p = None /\ s.(layers) !! l = None /\
         s' = {| handles := <[p := mkAnalogLayer (Some l) (Some l)]>
                              s.(handles);
                 layers := <[l := mkLayer frame frame
                                    (Some Proc_bsky_analog_layer_update)
                                    false zero_data]> s.(layers) |} /\
         live_handle s' p l /\
         layer_update_proc <$> s'.(layers) !! l
         = Some (Some Proc_bsky_analog_layer_update)).
Proof.
  destruct handle_mem, layer_mem.
  - eexists _, _. split; [apply create_success|].
    split; [split; [done | intros [|]; done]|]. split; [done|].
    intros p [= <-]. exists (fresh (dom (layers s))).
    split; [apply fresh_handle|]. split; [apply fresh_layer|].
    split; [done|]. unfold live_handle. cbn.
    rewrite !lookup_insert_eq. by eauto.
  - eexists _, _. split; [apply create_no_layer_mem|].
    split; [split; [by right | done]|]. by split.
  - eexists _, _. split; [apply create_no_handle_mem|].
    split; [split; [by left | done]|]. by split.
  - eexists _, _. split; [apply create_no_handle_mem|].
    split; [split; [by left | done]|]. by split.
Qed.

Lemma create_some handle_mem layer_mem frame s p s' :
  bsky_analog_layer_create handle_mem layer_mem frame s = Some (Some p, s') ->
  handle_mem = true /\ layer_mem = true.
Proof.
  destruct handle_mem, layer_mem; try done.
  by rewrite create_no_layer_mem.
Qed.

(** C8: right after a successful creation, the state reached through the
    handle has all its fields zero: the time is the epoch, the calendar
    fields are zero and so is [sky_thickness]. *)
Theorem create_zero_state handle_mem layer_mem frame s p s' :
  bsky_analog_layer_create handle_mem layer_mem frame s = Some (Some p, s') ->
  exists l L,
    live_handle s' p l /\ s'.(layers) !! l = Some L /\
    (d ← load_data p ; read_data d) s' = Some (L.(layer_data), s') /\
    L.(layer_data).(unix_time) = 0 /\
    L.(layer_data).(wall_time) = mk_tm 0 0 0 0 0 0 0 0 0 /\
    L.(layer_data).(sky_thickness) = 0.
Proof.
  intros Hc. destruct (create_some _ _ _ _ _ _ Hc) as [-> ->].
  rewrite create_success in Hc. injection Hc as <- <-.
  eexists _, _. split; [|split; [cbn; apply lookup_insert_eq|]].
  - unfold live_handle. cbn. rewrite !lookup_insert_eq. by eauto.
  - split; [|done]. sys_unfold.
    rewrite lookup_insert_eq. cbn. by rewrite lookup_insert_eq.
Qed.

Lemma create_zero_state_witness :
  exists p s' l L,
    bsky_analog_layer_create true true (square 180) empty_world
    = Some (Some p, s') /\
    s'.(layers) !! l = Some L /\ L.(layer_data) = zero_data.
Proof.
  pose proof (create_success (square 180) empty_world) as Hc.
  destruct (create_zero_state _ _ _ _ _ _ Hc)
    as (l & L & _ & Hl & _ & Hu & Hw & Ht).
  eexists _, _, l, L. split; [exact Hc|]. split; [exact Hl|].
  destruct L as [? ? ? ? [? ? ?]]. simpl in *. by subst.
Defined.

(** ** Setting the time *)

(** C7: for every live handle and every timestamp, setting the time
    succeeds, stores the timestamp in the state's [unix_time], stores the
    host's local calendar breakdown of it in [wall_time], leaves
    [sky_thickness] and everything else about the layer alone and marks the
    layer dirty; the handles and the other layers are untouched; a redraw
    that follows reads the hour and the minute of that breakdown: the sun's
    angle it hands to the polar mapping is computed from them. *)
Theorem set_time_then_redraw polar localtime s p l time :
  live_handle s p l ->
  exists s' L L' trace,
    bsky_analog_layer_set_time localtime p time s = Some (tt, s') /\
    s'.(handles) = s.(handles) /\
    (forall l', l' <> l -> s'.(layers) !! l' = s.(layers) !! l') /\
    s.(layers) !! l = Some L /\ s'.(layers) !! l = Some L' /\
    live_handle s' p l /\
    L'.(layer_data).(unix_time) = time /\
    L'.(layer_data).(wall_time) = localtime time /\
    L'.(layer_data).(sky_thickness) = L.(layer_data).(sky_thickness) /\
    L'.(layer_dirty) = true /\
    L'.(layer_frame) = L.(layer_frame) /\
    L'.(layer_bounds) = L.(layer_bounds) /\
    L'.(layer_update_proc) = L.(layer_update_proc) /\
    bsky_analog_layer_update polar (Some l) s' = Some (trace, s') /\
    trace = trace_of (bsky_analog_layer_paint polar L.(layer_bounds)
                        (mkData time (localtime time)
                           L.(layer_data).(sky_thickness))) /\
    last (polar_angles trace) =
    Some (midnight_angle
          + Z.quot (TRIG_MAX_ANGLE * (localtime time).(tm_hour)) 24
          + Z.quot (TRIG_MAX_ANGLE * (localtime time).(tm_min)) (24 * 60)).
Proof.
  intros [Hp [L Hl]].
  eexists _, L, _, _. split; [by apply set_time_live|]. cbn.
  split; [done|]. split; [by intros l' Hne; rewrite lookup_insert_ne|].
  split; [done|]. split; [apply lookup_insert_eq|].
  split; [unfold live_handle; cbn; by rewrite lookup_insert_eq|].
  cbn. do 7 (split; [reflexivity|]).
  split; [apply update_live, lookup_insert_eq|]. cbn.
  split; [reflexivity|]. rewrite polar_angles_paint. apply last_snoc.
Qed.

Lemma set_time_then_redraw_witness :
  exists s' trace,
    bsky_analog_layer_set_time utc_first_day 1 43200 one_layer_world
    = Some (tt, s') /\
    bsky_analog_layer_update centre_polar (Some 1%positive) s'
    = Some (trace, s') /\
    last (polar_angles trace) = Some 65536.
Proof.
  assert (Hlive : live_handle one_layer_world 1 1).
  { split; [reflexivity|]. eexists. reflexivity. }
  destruct (set_time_then_redraw centre_polar utc_first_day one_layer_world
              1 1 43200 Hlive)
    as (s' & L & L' & trace & Hs & _ & _ & _ & _ & _ & _ & _ & _ & _ & _ & _
        & _ & Hu & _ & Ha).
  exists s', trace. split; [exact Hs|]. split; [exact Hu|]. exact Ha.
Defined.

(** ** The stored sky thickness *)

Lemma set_time_keeps_sky_thickness localtime s p time s' :
  bsky_analog_layer_set_time localtime p time s = Some (tt, s') ->
  forall l, sky_thickness_at s' l = sky_thickness_at s l.
Proof.
  sys_unfold.
  destruct (handles s !! p) as [[lo [d|]]|] eqn:Hp; cbn; try done.
  destruct (layers s !! d) as [Ld|] eqn:Hd; cbn; try done.
  rewrite Hp. cbn. rewrite lookup_insert_eq. cbn. rewrite Hp. cbn.
  destruct lo as [l'|]; try done.
  rewrite insert_insert_eq.
  destruct (decide (d = l')) as [<-|Hne].
  - rewrite lookup_insert_eq. cbn. rewrite insert_insert_eq.
    intros [= <-] l. unfold sky_thickness_at. cbn.
    destruct (decide (d = l)) as [<-|Hne'].
    + by rewrite lookup_insert_eq, Hd.
    + by rewrite lookup_insert_ne.
  - rewrite lookup_insert_ne by done.
    destruct (layers s !! l') as [Ll|] eqn:Hl'; cbn; try done.
    intros [= <-] l. unfold sky_thickness_at. cbn.
    destruct (decide (l' = l)) as [<-|Hne1].
    + by rewrite lookup_insert_eq, Hl'.
    + rewrite lookup_insert_ne by done.
      destruct (decide (d = l)) as [<-|Hne2].
      * by rewrite lookup_insert_eq, Hd.
      * by rewrite lookup_insert_ne.
Qed.

Lemma get_layer_pure p s r s' :
  bsky_analog_layer_get_layer p s = Some (r, s') -> s' = s.
Proof.
  sys_unfold. destruct (handles s !! p); cbn; congruence.
Qed.

Lemma update_pure polar l s t s' :
  bsky_analog_layer_update polar l s = Some (t, s') -> s' = s.
Proof.
  sys_unfold. destruct l as [l|]; try done.
  destruct (layers s !! l) as [L|] eqn:Hl; cbn; try done.
  rewrite Hl. cbn. rewrite Hl. cbn. congruence.
Qed.

Lemma paint_ignores_sky_thickness polar bounds d1 d2 :
  unix_time d1 = unix_time d2 -> wall_time d1 = wall_time d2 ->
  trace_of (bsky_analog_layer_paint polar bounds d1) =
  trace_of (bsky_analog_layer_paint polar bounds d2).
Proof.
  destruct d1, d2. simpl. intros -> ->. reflexivity.
Qed.

(** C9: the stored [sky_thickness] field has no influence on a redraw and
    nothing writes it: two states that agree on [unix_time] and [wall_time]
    give the same trace of SDK calls; setting the time leaves the field of
    every layer as it was; reading the layer of a handle and redrawing leave
    the whole world as it was; creation leaves the field of every layer
    that existed as it was, the field of the new layer being the zero that
    [layer_create_with_data] put there. *)
Theorem sky_thickness_field_unused polar localtime :
  (forall bounds d1 d2,
     unix_time d1 = unix_time d2 -> wall_time d1 = wall_time d2 ->
     trace_of (bsky_analog_layer_paint polar bounds d1) =
     trace_of (bsky_analog_layer_paint polar bounds d2)) /\
  (forall s p time s',
     bsky_analog_layer_set_time localtime p time s = Some (tt, s') ->
     forall l, sky_thickness_at s' l = sky_thickness_at s l) /\
  (forall s p r s',
     bsky_analog_layer_get_layer p s = Some (r, s') -> s' = s) /\
  (forall s l t s',
     bsky_analog_layer_update polar l s = Some (t, s') -> s' = s) /\
  (forall handle_mem layer_mem frame s r s',
     bsky_analog_layer_create handle_mem layer_mem frame s = Some (r, s') ->
     forall l,
       sky_thickness_at s' l = sky_thickness_at s l \/
       (s.(layers) !! l = None /\
        sky_thickness_at s' l = Some zero_data.(sky_thickness))).
Proof.
  split; [apply paint_ignores_sky_thickness|].
  split; [intros s p time s'; apply set_time_keeps_sky_thickness|].
  split; [intros s p r s'; apply get_layer_pure|].
  split; [intros s l t s'; apply update_pure|].
  intros handle_mem layer_mem frame s r s' Hc l.
  destruct handle_mem, layer_mem;
    rewrite ?create_success, ?create_no_layer_mem, ?create_no_handle_mem in Hc;
    injection Hc as <- <-; try by left.
  unfold sky_thickness_at. cbn.
  destruct (decide (fresh (dom (layers s)) = l)) as [<-|Hne].
  - right. split; [apply fresh_layer|]. by rewrite lookup_insert_eq.
  - left. by rewrite lookup_insert_ne.
Qed.

(** * Further properties of the module *)

(** ** More on [bsky_rect_trim] *)

Lemma to_int8_cong z : exists k, to_int8 z = z + 256 * k.
Proof.
  unfold to_int8, wrap_signed.
  change (2 ^ (8 - 1)) with 128. change (2 ^ 8) with 256.
  exists (- ((z + 128) / 256)). div_lia.
Qed.

Lemma to_int8_unique z a k : fits_int8 a -> a = z + 256 * k -> to_int8 z = a.
Proof.
  unfold fits_int8, to_int8, wrap_signed. intros Ha ->.
  change (2 ^ (8 - 1)) with 128. change (2 ^ 8) with 256. div_lia.
Qed.

Lemma to_int16_unique z a k :
  fits_int16 a -> a = z + 65536 * k -> to_int16 z = a.
Proof.
  unfold fits_int16, to_int16, wrap_signed. intros Ha ->.
  change (2 ^ (16 - 1)) with 32768. change (2 ^ 16) with 65536. div_lia.
Qed.

Lemma to_int8_opp t : to_int8 t <> -128 -> to_int8 (- t) = - to_int8 t.
Proof.
  intros Hne. destruct (to_int8_cong t) as [k Hk].
  pose proof (to_int8_range t) as Hr. unfold fits_int8 in Hr.
  apply (to_int8_unique _ _ (- k)); [unfold fits_int8|]; lia.
Qed.

(** Trimming keeps the centre of the rectangle where it was: twice the
    origin plus the size is unchanged modulo the 16-bit wrap-around, whatever
    the argument, and unchanged exactly when the four results fit 16 bits. *)
Theorem bsky_rect_trim_keeps_centre rect t :
  let r := bsky_rect_trim rect t in
  (2 * r.(origin).(x) + r.(size).(w)
   - (2 * rect.(origin).(x) + rect.(size).(w))) mod 65536 = 0 /\
  (2 * r.(origin).(y) + r.(size).(h)
   - (2 * rect.(origin).(y) + rect.(size).(h))) mod 65536 = 0 /\
  (fits_int16 (rect.(origin).(x) + to_int8 t) ->
   fits_int16 (rect.(origin).(y) + to_int8 t) ->
   fits_int16 (rect.(size).(w) - to_int8 t * 2) ->
   fits_int16 (rect.(size).(h) - to_int8 t * 2) ->
   2 * r.(origin).(x) + r.(size).(w)
   = 2 * rect.(origin).(x) + rect.(size).(w) /\
   2 * r.(origin).(y) + r.(size).(h)
   = 2 * rect.(origin).(y) + rect.(size).(h)).
Proof.
  intros r. unfold r, bsky_rect_trim. simpl.
  set (a := to_int8 t).
  destruct (to_int16_cong (x (origin rect) + a)) as [k1 H1].
  destruct (to_int16_cong (y (origin rect) + a)) as [k2 H2].
  destruct (to_int16_cong (w (size rect) - a * 2)) as [k3 H3].
  destruct (to_int16_cong (h (size rect) - a * 2)) as [k4 H4].
  split; [rewrite H1, H3; div_lia|]. split; [rewrite H2, H4; div_lia|].
  intros Fx Fy Fw Fh. rewrite !to_int16_fits by done. lia.
Qed.

(** Trimming by [t] and then by [- t] gives the rectangle back, even when
    the intermediate rectangle wrapped around, unless [t] reads as -128 in
    8 bits, whose opposite does not fit. *)
Theorem bsky_rect_trim_undo rect t :
  int16_rect rect -> to_int8 t <> -128 ->
  bsky_rect_trim (bsky_rect_trim rect t) (- t) = rect.
Proof.
  intros (Hx & Hy & Hw & Hh) Ht.
  destruct rect as [[ox oy] [sw sh]]. unfold bsky_rect_trim. simpl in *.
  rewrite (to_int8_opp t Ht). set (a := to_int8 t).
  destruct (to_int16_cong (ox + a)) as [k1 H1].
  destruct (to_int16_cong (oy + a)) as [k2 H2].
  destruct (to_int16_cong (sw - a * 2)) as [k3 H3].
  destruct (to_int16_cong (sh - a * 2)) as [k4 H4].
  rewrite H1, H2, H3, H4.
  rewrite (to_int16_unique (ox + a + 65536 * k1 + - a) ox (- k1)) by (done || lia).
  rewrite (to_int16_unique (oy + a + 65536 * k2 + - a) oy (- k2)) by (done || lia).
  rewrite (to_int16_unique (sw - a * 2 + 65536 * k3 - - a * 2) sw (- k3))
    by (done || lia).
  rewrite (to_int16_unique (sh - a * 2 + 65536 * k4 - - a * 2) sh (- k4))
    by (done || lia).
  reflexivity.
Qed.

Lemma bsky_rect_trim_undo_witness :
  bsky_rect_trim (bsky_rect_trim (square 180) 30) (- 30) = square 180.
Proof.
  apply bsky_rect_trim_undo.
  - unfold int16_rect, fits_int16. simpl. lia.
  - vm_compute. discriminate.
Defined.

(** The zero inset leaves a rectangle as it is. *)
Lemma bsky_rect_trim_0 rect : int16_rect rect -> bsky_rect_trim rect 0 = rect.
Proof.
  intros (Hx & Hy & Hw & Hh). destruct rect as [[ox oy] [sw sh]].
  unfold bsky_rect_trim. simpl in *. change (to_int8 0) with 0.
  rewrite !Z.add_0_r, Z.mul_0_l, !Z.sub_0_r. by rewrite !to_int16_fits.
Qed.

(** ** More on the redraw *)

(** One redraw paints, in this order from bottom to top: the whole region
    in the clear colour, the three sky bands from the outside in, the 24
    hour markers from index 0 to 23, the sun's disc and its outline; 30
    shapes in all.  The result does not depend on what the graphics context
    held when the redraw began. *)
Theorem redraw_paints_in_order polar ctx bounds data :
  let trace := trace_of (bsky_analog_layer_paint polar bounds data) in
  render ctx trace =
    FilledRect bounds GColorClear
    :: (sky_band bounds <$> [0; 1; 2])
    ++ (hour_tick polar bounds <$> seqZ 0 24)
    ++ sun_shapes polar bounds data /\
  length (render ctx trace) = 30%nat /\
  forall ctx', render ctx' trace = render ctx trace.
Proof.
  intros trace. split; [reflexivity|]. split; [reflexivity|].
  intros ctx'. unfold trace.
  by rewrite (render_paint polar ctx'), (render_paint polar ctx).
Qed.

(** Of the state, a redraw reads the hour and the minute only: two states
    that agree on them give the same SDK calls, whatever their seconds,
    dates, timestamps and stored thickness. *)
Theorem redraw_reads_hour_and_minute polar bounds d1 d2 :
  d1.(wall_time).(tm_hour) = d2.(wall_time).(tm_hour) ->
  d1.(wall_time).(tm_min) = d2.(wall_time).(tm_min) ->
  trace_of (bsky_analog_layer_paint polar bounds d1) =
  trace_of (bsky_analog_layer_paint polar bounds d2).
Proof.
  destruct d1 as [u1 [] s1], d2 as [u2 [] s2]. simpl.
  intros -> ->. reflexivity.
Qed.

Lemma redraw_reads_hour_and_minute_witness :
  trace_of (bsky_analog_layer_paint centre_polar (square 180)
              (mkData 7 (mk_tm 1 30 9 2 3 4 5 6 0) 8)) =
  trace_of (bsky_analog_layer_paint centre_polar (square 180) (at_time 9 30)).
Proof. apply redraw_reads_hour_and_minute; reflexivity. Defined.

(** The sky bands and the hour markers do not depend on the state at all:
    two redraws of the same region differ at most in the two circles of the
    sun. *)
Theorem redraw_background_ignores_state polar ctx bounds d1 d2 :
  List.filter (fun s => negb (is_circle s))
    (render ctx (trace_of (bsky_analog_layer_paint polar bounds d1))) =
  List.filter (fun s => negb (is_circle s))
    (render ctx (trace_of (bsky_analog_layer_paint polar bounds d2))).
Proof.
  rewrite !render_paint, !app_comm_cons, !List.filter_app.
  do 2 f_equal.
Qed.

(** Over a day the sun only moves forward: a later minute of the day gives a
    strictly larger angle, so that no two minutes share one. *)
Theorem sun_angle_increasing d1 d2 :
  0 <= d1.(wall_time).(tm_hour) <= 23 -> 0 <= d1.(wall_time).(tm_min) <= 59 ->
  0 <= d2.(wall_time).(tm_hour) <= 23 -> 0 <= d2.(wall_time).(tm_min) <= 59 ->
  minute_of_day d1 < minute_of_day d2 ->
  sun_angle d1 < sun_angle d2.
Proof.
  unfold minute_of_day, sun_angle, midnight_angle, TRIG_MAX_ANGLE.
  change (24 * 60) with 1440. intros H1 M1 H2 M2 Hlt. quot_lia.
Qed.

Lemma sun_angle_increasing_witness :
  sun_angle (at_time 11 59) < sun_angle (at_time 12 0).
Proof.
  apply sun_angle_increasing; simpl; try lia. vm_compute. reflexivity.
Defined.

(** On the hour the sun stands on that hour's marker, modulo one full turn;
    during the hour it is ahead of the marker by [full_turn*minute/1440],
    which stays below the 2730 units that separate two markers at least. *)
Theorem sun_angle_on_marker data :
  let hour := data.(wall_time).(tm_hour) in
  let minute := data.(wall_time).(tm_min) in
  0 <= hour <= 23 -> 0 <= minute <= 59 ->
  sun_angle data mod TRIG_MAX_ANGLE
  = (hour_angle hour + TRIG_MAX_ANGLE * minute / 1440) mod TRIG_MAX_ANGLE /\
  0 <= TRIG_MAX_ANGLE * minute / 1440 < 2730 /\
  (minute = 0 -> sun_angle data mod TRIG_MAX_ANGLE = hour_angle hour).
Proof.
  intros hour minute Hh Hm.
  assert (Hha : hour_angle hour =
                (midnight_angle + Z.quot (TRIG_MAX_ANGLE * hour) 24)
                  mod TRIG_MAX_ANGLE).
  { unfold hour_angle. rewrite (Z.mul_comm hour).
    apply Z.rem_mod_nonneg; unfold midnight_angle, TRIG_MAX_ANGLE;
      [quot_lia | lia]. }
  assert (Hq : Z.quot (TRIG_MAX_ANGLE * minute) (24 * 60)
               = TRIG_MAX_ANGLE * minute / 1440)
    by (apply Z.quot_div_nonneg; unfold TRIG_MAX_ANGLE; lia).
  assert (Hs : sun_angle data mod TRIG_MAX_ANGLE
               = (hour_angle hour + TRIG_MAX_ANGLE * minute / 1440)
                   mod TRIG_MAX_ANGLE).
  { unfold sun_angle. fold hour minute. rewrite Hq, Hha.
    by rewrite Z.add_mod_idemp_l by (unfold TRIG_MAX_ANGLE; lia). }
  split; [exact Hs|]. split; [unfold TRIG_MAX_ANGLE; div_lia|].
  intros Hz. rewrite Hs, Hz. rewrite Z.mul_0_r. change (0 / 1440) with 0.
  rewrite Z.add_0_r. apply Z.mod_small. apply hour_angle_reduced. lia.
Qed.

Lemma sun_angle_on_marker_witness :
  sun_angle (at_time 18 0) mod TRIG_MAX_ANGLE = hour_angle 18.
Proof.
  assert (H18 : 0 <= 18 <= 23) by lia. assert (H0 : 0 <= 0 <= 59) by lia.
  apply (sun_angle_on_marker (at_time 18 0) H18 H0). reflexivity.
Defined.

(** The hour markers come in opposite pairs: the marker of an hour and the
    marker twelve hours later are exactly half a turn apart, so that the 24
    lines lie on 12 diameters of the dial. *)
Theorem hour_markers_opposite hour :
  0 <= hour < 12 ->
  hour_angle (hour + 12)
  = (hour_angle hour + TRIG_MAX_ANGLE / 2) mod TRIG_MAX_ANGLE /\
  (hour_angle (hour + 12) - hour_angle hour) mod TRIG_MAX_ANGLE
  = TRIG_MAX_ANGLE / 2.
Proof.
  intros Hh. unfold hour_angle, midnight_angle, TRIG_MAX_ANGLE.
  change (Z.quot 65536 2) with 32768. change (65536 / 2) with 32768.
  rewrite !Z.rem_mod_nonneg by quot_lia.
  rewrite !Z.quot_div_nonneg by lia.
  replace ((hour + 12) * 65536 / 24) with (hour * 65536 / 24 + 32768)
    by div_lia.
  split; div_lia.
Qed.

Lemma hour_markers_opposite_witness :
  hour_angle (6 + 12) = (hour_angle 6 + TRIG_MAX_ANGLE / 2) mod TRIG_MAX_ANGLE.
Proof. apply hour_markers_opposite. lia. Defined.

(** A region whose shorter side is below 6 has no sky: the thickness is 0,
    the three bands are asked for on the bounds themselves with thickness 0,
    every hour marker is a line from a point to the same point, and the sun
    has radius 0 on the oval of the bounds. *)
Theorem redraw_of_tiny_region polar ctx bounds data :
  int16_rect bounds -> 0 <= bounds.(size).(w) -> 0 <= bounds.(size).(h) ->
  shorter_side bounds < 6 ->
  sky_thickness_of bounds = 0 /\
  render ctx (trace_of (bsky_analog_layer_paint polar bounds data)) =
    FilledRect bounds GColorClear
    :: ((fun color =>
           FilledRadial bounds GOvalScaleModeFitCircle 0 0 TRIG_MAX_ANGLE
             color) <$> color_sky_fill)
    ++ ((fun hour =>
           let p := polar bounds GOvalScaleModeFitCircle (hour_angle hour) in
           Line p p GColorBlueMoon (if hour mod 3 =? 0 then 3 else 1) true)
        <$> seqZ 0 24)
    ++ (let c := polar bounds GOvalScaleModeFitCircle (sun_angle data) in
        [FilledCircle c 0 GColorYellow;
         CircleOutline c 0 GColorDarkCandyAppleRed 2]).
Proof.
  intros Hb Hw Hh Hs.
  assert (Hst : sky_thickness_of bounds = 0).
  { rewrite sky_thickness_of_nonneg by done.
    unfold shorter_side in *. div_lia. }
  split; [exact Hst|].
  rewrite render_paint.
  unfold sky_band, hour_tick, sun_shapes, sun_orbit, sun_diameter.
  rewrite Hst. change (seqZ 0 3) with [0; 1; 2]. cbn [fmap list_fmap].
  change (Z.quot (0 * 0) color_sky_fill_len) with 0.
  change (Z.quot (0 * 1) color_sky_fill_len) with 0.
  change (Z.quot (0 * 2) color_sky_fill_len) with 0.
  change (Z.quot 0 2) with 0.
  rewrite !(bsky_rect_trim_0 bounds Hb). reflexivity.
Qed.

Lemma redraw_of_tiny_region_witness :
  sky_thickness_of (square 5) = 0.
Proof.
  apply (redraw_of_tiny_region centre_polar some_context (square 5)
           (at_time 12 0)).
  - unfold int16_rect, fits_int16. simpl. lia.
  - simpl. lia.
  - simpl. lia.
  - vm_compute. reflexivity.
Defined.

(** The three sky bands never overlap and stay within the sky thickness:
    each band ends where the next begins or one unit before it, and the
    innermost ends at the thickness or one unit before it.  They tile
    the sky exactly when the thickness is a multiple of 3. *)
Theorem sky_bands_tiling polar ctx bounds data :
  plain_region bounds -> shorter_side bounds <= 767 ->
  exists a0 a1 a2 t,
    List.filter is_radial
      (render ctx (trace_of (bsky_analog_layer_paint polar bounds data))) =
    [FilledRadial (rect_inset bounds a0) GOvalScaleModeFitCircle t
       0 TRIG_MAX_ANGLE GColorCyan;
     FilledRadial (rect_inset bounds a1) GOvalScaleModeFitCircle t
       0 TRIG_MAX_ANGLE GColorElectricBlue;
     FilledRadial (rect_inset bounds a2) GOvalScaleModeFitCircle t
       0 TRIG_MAX_ANGLE GColorCeleste] /\
    a0 = 0 /\ 0 <= t /\
    a0 + t <= a1 <= a0 + t + 1 /\
    a1 + t <= a2 <= a1 + t + 1 /\
    a2 + t <= sky_thickness_of bounds <= a2 + t + 1 /\
    (sky_thickness_of bounds mod 3 = 0 <->
     a1 = a0 + t /\ a2 = a1 + t /\ sky_thickness_of bounds = a2 + t).
Proof.
  intros Hp Hm.
  pose proof (sky_thickness_of_plain bounds Hp) as Hst.
  assert (0 <= shorter_side bounds)
    by (destruct Hp as (_ & ? & ? & _); unfold shorter_side; lia).
  exists (shorter_side bounds / 6 * 0 / 3), (shorter_side bounds / 6 * 1 / 3),
    (shorter_side bounds / 6 * 2 / 3), (shorter_side bounds / 6 / 3).
  split.
  - rewrite radials_paint. change (seqZ 0 3) with [0; 1; 2]. simpl fmap.
    by rewrite !sky_band_plain by (try done; lia).
  - rewrite Hst. repeat split; div_lia.
Qed.

Lemma sky_bands_tiling_witness :
  exists a0 a1 a2 t,
    List.filter is_radial
      (render some_context
         (trace_of (bsky_analog_layer_paint centre_polar (square 30)
                      (at_time 12 0)))) =
    [FilledRadial (rect_inset (square 30) a0) GOvalScaleModeFitCircle t
       0 TRIG_MAX_ANGLE GColorCyan;
     FilledRadial (rect_inset (square 30) a1) GOvalScaleModeFitCircle t
       0 TRIG_MAX_ANGLE GColorElectricBlue;
     FilledRadial (rect_inset (square 30) a2) GOvalScaleModeFitCircle t
       0 TRIG_MAX_ANGLE GColorCeleste] /\
    a1 <= a0 + t + 1 /\ a2 <= a1 + t + 1.
Proof.
  assert (Hp : plain_region (square 30))
    by (unfold plain_region, int16_rect, fits_int16; simpl; lia).
  assert (Hs : shorter_side (square 30) <= 767) by (vm_compute; discriminate).
  destruct (sky_bands_tiling centre_polar some_context (square 30)
              (at_time 12 0) Hp Hs)
    as (a0 & a1 & a2 & t & Hr & _ & _ & H1 & H2 & _).
  exists a0, a1, a2, t. split; [exact Hr|]. lia.
Defined.

(** The sun fits the sky band it travels in: its orbit is inset by half the
    thickness and its radius is at most three eighths of the thickness, so
    that the disc stays at least an eighth of the thickness away from both
    edges of the band. *)
Theorem sun_within_sky_band polar ctx bounds data :
  plain_region bounds -> shorter_side bounds <= 1535 ->
  exists centre radius,
    List.filter is_circle
      (render ctx (trace_of (bsky_analog_layer_paint polar bounds data))) =
    [FilledCircle centre radius GColorYellow;
     CircleOutline centre radius GColorDarkCandyAppleRed 2] /\
    sun_orbit bounds = rect_inset bounds (sky_thickness_of bounds / 2) /\
    0 <= radius /\
    8 * radius <= 3 * sky_thickness_of bounds /\
    radius <= sky_thickness_of bounds / 2.
Proof.
  intros Hp Hm.
  pose proof (sky_thickness_of_plain bounds Hp) as Hst.
  assert (0 <= shorter_side bounds)
    by (destruct Hp as (_ & ? & ? & _); unfold shorter_side; lia).
  assert (Ht : 0 <= sky_thickness_of bounds <= 255) by (rewrite Hst; div_lia).
  eexists _, _. split; [rewrite circles_paint; reflexivity|].
  split.
  { unfold sun_orbit. rewrite Z.quot_div_nonneg by lia.
    apply plain_region_trim; [done | div_lia | rewrite Hst; div_lia]. }
  unfold sun_diameter.
  rewrite (Z.quot_div_nonneg (sky_thickness_of bounds * 3) 4) by lia.
  rewrite Z.quot_div_nonneg by div_lia.
  rewrite to_uint16_fits by div_lia. repeat split; div_lia.
Qed.

Lemma sun_within_sky_band_witness :
  exists centre radius,
    List.filter is_circle
      (render some_context
         (trace_of (bsky_analog_layer_paint centre_polar (square 180)
                      (at_time 12 0)))) =
    [FilledCircle centre radius GColorYellow;
     CircleOutline centre radius GColorDarkCandyAppleRed 2] /\
    8 * radius <= 3 * sky_thickness_of (square 180).
Proof.
  assert (Hp : plain_region (square 180))
    by (unfold plain_region, int16_rect, fits_int16; simpl; lia).
  assert (Hs : shorter_side (square 180) <= 1535)
    by (vm_compute; discriminate).
  destruct (sun_within_sky_band centre_polar some_context (square 180)
              (at_time 12 0) Hp Hs) as (c & r & Hr & _ & _ & H8 & _).
  exists c, r. split; [exact Hr | exact H8].
Defined.

(** ** Handles and layers over time *)

Lemma wf_empty_world : wf_world empty_world.
Proof.
  split; [|split].
  - intros p H Hp. cbn in Hp. by rewrite lookup_empty in Hp.
  - intros l [L Hl]. cbn in Hl. by rewrite lookup_empty in Hl.
  - intros p1 p2 l Hp. cbn in Hp. by rewrite lookup_empty in Hp.
Qed.

Lemma wf_world_handle s p :
  wf_world s -> is_Some (s.(handles) !! p) ->
  exists l L, live_handle s p l /\ s.(layers) !! l = Some L.
Proof.
  intros (H1 & _) [H Hp]. destruct (H1 p H Hp) as (l & -> & [L Hl]).
  exists l, L. split; [split; [done | by exists L] | done].
Qed.

Lemma wf_after_create s frame :
  wf_world s ->
  wf_world
    {| handles := <[fresh (dom s.(handles)) :=
                      mkAnalogLayer (Some (fresh (dom s.(layers))))
                        (Some (fresh (dom s.(layers))))]> s.(handles);
       layers := <[fresh (dom s.(layers)) :=
                     mkLayer frame frame (Some Proc_bsky_analog_layer_update)
                       false zero_data]> s.(layers) |}.
Proof.
  intros (H1 & H2 & H3).
  pose proof (fresh_handle s) as Fp. pose proof (fresh_layer s) as Fl.
  set (pf := fresh (dom (handles s))) in *.
  set (lf := fresh (dom (layers s))) in *.
  split; [|split]; cbn.
  - intros p H Hp. destruct (decide (pf = p)) as [<-|Hne].
    + rewrite lookup_insert_eq in Hp. injection Hp as <-.
      exists lf. split; [done|]. rewrite lookup_insert_eq. by eexists.
    + rewrite lookup_insert_ne in Hp by done.
      destruct (H1 p H Hp) as (l & -> & Hl). exists l. split; [done|].
      rewrite lookup_insert_ne; [done|]. intros <-.
      rewrite Fl in Hl. by destruct Hl.
  - intros l Hl. destruct (decide (lf = l)) as [<-|Hne].
    + exists pf. by rewrite lookup_insert_eq.
    + rewrite lookup_insert_ne in Hl by done.
      destruct (H2 l Hl) as (p & Hp). exists p.
      rewrite lookup_insert_ne; [done|]. intros <-. congruence.
  - intros p1 p2 l Hp1 Hp2.
    destruct (decide (pf = p1)) as [<-|Hne1];
      destruct (decide (pf = p2)) as [<-|Hne2]; try done.
    + rewrite lookup_insert_eq in Hp1. injection Hp1 as <-.
      rewrite lookup_insert_ne in Hp2 by done.
      destruct (H1 p2 _ Hp2) as (l & [= <-] & Hl).
      rewrite Fl in Hl. by destruct Hl.
    + rewrite lookup_insert_eq in Hp2. injection Hp2 as <-.
      rewrite lookup_insert_ne in Hp1 by done.
      destruct (H1 p1 _ Hp1) as (l & [= <-] & Hl).
      rewrite Fl in Hl. by destruct Hl.
    + rewrite lookup_insert_ne in Hp1, Hp2 by done. by eapply H3.
Qed.

(** Creation keeps the world well-formed and disturbs nothing that was
    there: every handle and every layer of the world before is found
    unchanged in the world after, whether the creation succeeded or not. *)
Theorem create_keeps_world handle_mem layer_mem frame s r s' :
  wf_world s ->
  bsky_analog_layer_create handle_mem layer_mem frame s = Some (r, s') ->
  wf_world s' /\
  (forall p H, s.(handles) !! p = Some H -> s'.(handles) !! p = Some H) /\
  (forall l L, s.(layers) !! l = Some L -> s'.(layers) !! l = Some L).
Proof.
  intros Hwf Hc.
  destruct handle_mem, layer_mem;
    rewrite ?create_success, ?create_no_layer_mem, ?create_no_handle_mem in Hc;
    injection Hc as <- <-; try done.
  split; [by apply wf_after_create|]. cbn. split.
  - intros p H Hp. rewrite lookup_insert_ne; [done|].
    intros <-. by rewrite fresh_handle in Hp.
  - intros l L Hl. rewrite lookup_insert_ne; [done|].
    intros <-. by rewrite fresh_layer in Hl.
Qed.

Lemma create_keeps_world_witness :
  exists r s',
    bsky_analog_layer_create true true (square 180) empty_world
    = Some (r, s') /\ wf_world s'.
Proof.
  pose proof (create_success (square 180) empty_world) as Hc.
  eexists _, _. split; [exact Hc|].
  exact (proj1 (create_keeps_world true true (square 180) empty_world _ _
                  wf_empty_world Hc)).
Defined.

Lemma wf_one_layer_world : wf_world one_layer_world.
Proof.
  split; [|split]; cbn.
  - intros p H Hp. apply lookup_singleton_Some in Hp as [<- <-].
    exists 1%positive. split; [done|]. rewrite lookup_singleton_eq. by eexists.
  - intros l [L Hl]. apply lookup_singleton_Some in Hl as [<- <-].
    exists 1%positive. by rewrite lookup_singleton_eq.
  - intros p1 p2 l Hp1 Hp2.
    apply lookup_singleton_Some in Hp1 as [<- _].
    by apply lookup_singleton_Some in Hp2 as [<- _].
Qed.

Lemma live_one_layer_world : live_handle one_layer_world 1 1.
Proof. split; [reflexivity|]. eexists. reflexivity. Qed.

Lemma wf_after_set_time s l L L' :
  wf_world s -> s.(layers) !! l = Some L ->
  wf_world {| handles := s.(handles); layers := <[l := L']> s.(layers) |}.
Proof.
  intros (H1 & H2 & H3) Hl. split; [|split]; cbn.
  - intros p H Hp. destruct (H1 p H Hp) as (l' & -> & Hl').
    exists l'. split; [done|]. destruct (decide (l = l')) as [<-|Hne].
    + rewrite lookup_insert_eq. by eexists.
    + by rewrite lookup_insert_ne.
  - intros l' Hl'. apply H2. destruct (decide (l = l')) as [<-|Hne].
    + by eexists.
    + by rewrite lookup_insert_ne in Hl'.
  - exact H3.
Qed.

(** In a well-formed world, setting the time through any handle that exists
    is defined and leaves the world well-formed, with the same handles and
    the same set of layers. *)
Theorem set_time_keeps_world localtime s p time :
  wf_world s -> is_Some (s.(handles) !! p) ->
  exists s',
    bsky_analog_layer_set_time localtime p time s = Some (tt, s') /\
    wf_world s' /\
    s'.(handles) = s.(handles) /\
    dom s'.(layers) = dom s.(layers).
Proof.
  intros Hwf Hp.
  destruct (wf_world_handle s p Hwf Hp) as (l & L & [Hh _] & Hl).
  eexists. split; [by apply set_time_live|].
  split; [by eapply wf_after_set_time|]. split; [done|]. cbn.
  apply dom_insert_lookup_L. by eexists.
Qed.

Lemma set_time_keeps_world_witness :
  exists s',
    bsky_analog_layer_set_time utc_first_day 1 43200 one_layer_world
    = Some (tt, s') /\ wf_world s'.
Proof.
  assert (Hp : is_Some (one_layer_world.(handles) !! 1%positive))
    by (eexists; reflexivity).
  destruct (set_time_keeps_world utc_first_day one_layer_world 1 43200
              wf_one_layer_world Hp) as (s' & Hs & Hw & _).
  by exists s'.
Defined.

Lemma destroy_live s p l :
  live_handle s p l ->
  bsky_analog_layer_destroy p s =
  Some (tt, {| handles := delete p s.(handles);
               layers := delete l s.(layers) |}).
Proof.
  intros [Hp [L Hl]]. sys_unfold. rewrite Hp. cbn. rewrite Hl. cbn.
  rewrite Hp. cbn.
  repeat (first [ rewrite lookup_insert_eq | rewrite insert_insert_eq
                | rewrite delete_insert_eq ]; cbn).
  reflexivity.
Qed.

(** In a well-formed world, destroying any handle that exists is defined;
    it removes that handle and the layer it owns, nothing else, and the
    world stays well-formed: no layer is left without its handle. *)
Theorem destroy_keeps_world s p :
  wf_world s -> is_Some (s.(handles) !! p) ->
  exists l s',
    live_handle s p l /\
    bsky_analog_layer_destroy p s = Some (tt, s') /\
    s' = {| handles := delete p s.(handles);
            layers := delete l s.(layers) |} /\
    wf_world s'.
Proof.
  intros Hwf Hp.
  destruct (wf_world_handle s p Hwf Hp) as (l & L & Hlive & Hl).
  exists l. eexists. split; [done|]. split; [by apply destroy_live|].
  split; [done|]. destruct Hwf as (H1 & H2 & H3). destruct Hlive as [Hh _].
  split; [|split]; cbn.
  - intros p' H Hp'. apply lookup_delete_Some in Hp' as [Hne Hp'].
    destruct (H1 p' H Hp') as (l' & -> & Hl'). exists l'. split; [done|].
    rewrite lookup_delete_ne; [done|]. intros <-. by apply Hne, (H3 p p' l).
  - intros l' Hl'. rewrite lookup_delete_is_Some in Hl'.
    destruct Hl' as [Hne Hl']. destruct (H2 l' Hl') as (p' & Hp').
    exists p'. rewrite lookup_delete_ne; [done|]. intros <-. congruence.
  - intros p1 p2 l' Hp1 Hp2.
    apply lookup_delete_Some in Hp1 as [_ Hp1].
    apply lookup_delete_Some in Hp2 as [_ Hp2]. by eapply H3.
Qed.

Lemma destroy_keeps_world_witness :
  exists s',
    bsky_analog_layer_destroy 1 one_layer_world = Some (tt, s') /\
    wf_world s'.
Proof.
  assert (Hp : is_Some (one_layer_world.(handles) !! 1%positive))
    by (eexists; reflexivity).
  destruct (destroy_keeps_world one_layer_world 1 wf_one_layer_world Hp)
    as (l & s' & _ & Hd & _ & Hw).
  by exists s'.
Defined.

(** Creating a layer and destroying it at once gives back the world as it
    was before the creation: nothing is leaked. *)
Theorem create_destroy_round_trip handle_mem layer_mem frame s p s' :
  bsky_analog_layer_create handle_mem layer_mem frame s = Some (Some p, s') ->
  bsky_analog_layer_destroy p s' = Some (tt, s).
Proof.
  intros Hc. destruct (create_some _ _ _ _ _ _ Hc) as [-> ->].
  by apply (destroy_after_create frame).
Qed.

Lemma create_destroy_round_trip_witness :
  exists p s',
    bsky_analog_layer_create true true (square 180) empty_world
    = Some (Some p, s') /\
    bsky_analog_layer_destroy p s' = Some (tt, empty_world).
Proof.
  pose proof (create_success (square 180) empty_world) as Hc.
  eexists _, _. split; [exact Hc|].
  exact (create_destroy_round_trip true true (square 180) empty_world _ _ Hc).
Defined.

(** A destroyed handle is dangling: the module has no guard, and setting
    the time through it, asking for its layer or destroying it a second time
    is undefined behaviour. *)
Theorem use_after_destroy localtime s p l s' time :
  live_handle s p l ->
  bsky_analog_layer_destroy p s = Some (tt, s') ->
  bsky_analog_layer_set_time localtime p time s' = None /\
  bsky_analog_layer_get_layer p s' = None /\
  bsky_analog_layer_destroy p s' = None.
Proof.
  intros Hlive Hd. rewrite (destroy_live s p l Hlive) in Hd.
  injection Hd as <-. sys_unfold. by rewrite lookup_delete_eq.
Qed.

Lemma use_after_destroy_witness :
  exists s',
    bsky_analog_layer_destroy 1 one_layer_world = Some (tt, s') /\
    bsky_analog_layer_destroy 1 s' = None.
Proof.
  pose proof (destroy_live one_layer_world 1 1 live_one_layer_world) as Hd.
  eexists. split; [exact Hd|].
  exact (proj2 (proj2 (use_after_destroy utc_first_day one_layer_world 1 1 _ 0
                         live_one_layer_world Hd))).
Defined.

(** Setting the time twice through a live handle leaves exactly what the
    second call alone would have left: the first timestamp and its local
    time are overwritten and the layer is dirty either way. *)
Theorem set_time_overwrites localtime s p l time1 time2 :
  live_handle s p l ->
  (bsky_analog_layer_set_time localtime p time1 ;;
   bsky_analog_layer_set_time localtime p time2) s
  = bsky_analog_layer_set_time localtime p time2 s.
Proof.
  intros [Hp [L Hl]].
  unfold mbind at 1. unfold Sys_bind.
  rewrite (set_time_live localtime s p l L time1 Hp Hl).
  erewrite set_time_live; [|exact Hp | cbn; apply lookup_insert_eq].
  rewrite (set_time_live localtime s p l L time2 Hp Hl). cbn.
  by rewrite insert_insert_eq.
Qed.

Lemma set_time_overwrites_witness :
  (bsky_analog_layer_set_time utc_first_day 1 3600 ;;
   bsky_analog_layer_set_time utc_first_day 1 43200) one_layer_world
  = bsky_analog_layer_set_time utc_first_day 1 43200 one_layer_world.
Proof. exact (set_time_overwrites _ _ 1 1 _ _ live_one_layer_world). Defined.

(** Setting the time of two different layers through their handles can be
    done in either order: each call touches the state of its own layer
    only. *)
Theorem set_time_commutes localtime s p1 l1 p2 l2 time1 time2 :
  live_handle s p1 l1 -> live_handle s p2 l2 -> l1 <> l2 ->
  (bsky_analog_layer_set_time localtime p1 time1 ;;
   bsky_analog_layer_set_time localtime p2 time2) s
  = (bsky_analog_layer_set_time localtime p2 time2 ;;
     bsky_analog_layer_set_time localtime p1 time1) s.
Proof.
  intros [Hp1 [L1 Hl1]] [Hp2 [L2 Hl2]] Hne.
  unfold mbind, Sys_bind.
  rewrite (set_time_live localtime s p1 l1 L1 time1 Hp1 Hl1).
  rewrite (set_time_live localtime s p2 l2 L2 time2 Hp2 Hl2).
  erewrite set_time_live;
    [|exact Hp2 | cbn; rewrite lookup_insert_ne by done; exact Hl2].
  erewrite set_time_live;
    [|exact Hp1 | cbn; rewrite lookup_insert_ne by done; exact Hl1].
  cbn. by rewrite insert_insert_ne.
Qed.

Lemma set_time_commutes_witness :
  (bsky_analog_layer_set_time utc_first_day 1 3600 ;;
   bsky_analog_layer_set_time utc_first_day 2 43200) two_layer_world
  = (bsky_analog_layer_set_time utc_first_day 2 43200 ;;
     bsky_analog_layer_set_time utc_first_day 1 3600) two_layer_world.
Proof.
  apply (set_time_commutes utc_first_day two_layer_world 1 1 2 2).
  - split; [reflexivity|]. eexists. reflexivity.
  - split; [reflexivity|]. eexists. reflexivity.
  - discriminate.
Defined.

(** Two successful creations give two different handles that own two
    different layers, each with the frame it was created with; the second
    creation leaves the first handle live. *)
Theorem create_twice_distinct hm1 lm1 hm2 lm2 frame1 frame2 s p1 s1 p2 s2 :
  bsky_analog_layer_create hm1 lm1 frame1 s = Some (Some p1, s1) ->
  bsky_analog_layer_create hm2 lm2 frame2 s1 = Some (Some p2, s2) ->
  p1 <> p2 /\
  exists l1 l2 L1 L2,
    l1 <> l2 /\
    live_handle s2 p1 l1 /\ live_handle s2 p2 l2 /\
    s2.(layers) !! l1 = Some L1 /\ s2.(layers) !! l2 = Some L2 /\
    L1.(layer_frame) = frame1 /\ L2.(layer_frame) = frame2.
Proof.
  intros Hc1 Hc2.
  destruct (create_some _ _ _ _ _ _ Hc1) as [-> ->].
  destruct (create_some _ _ _ _ _ _ Hc2) as [-> ->].
  rewrite create_success in Hc1. injection Hc1 as <- <-.
  rewrite create_success in Hc2. injection Hc2 as <- <-. cbn.
  set (pa := fresh (dom (handles s))). set (la := fresh (dom (layers s))).
  set (ha := <[pa := _]> (handles s)). set (lya := <[la := _]> (layers s)).
  set (pb := fresh (dom ha)). set (lb := fresh (dom lya)).
  assert (Hpb : ha !! pb = None) by apply not_elem_of_dom, is_fresh.
  assert (Hlb : lya !! lb = None) by apply not_elem_of_dom, is_fresh.
  assert (Hp : pa <> pb)
    by (intros E; rewrite <- E in Hpb; unfold ha in Hpb;
        by rewrite lookup_insert_eq in Hpb).
  assert (Hl : la <> lb)
    by (intros E; rewrite <- E in Hlb; unfold lya in Hlb;
        by rewrite lookup_insert_eq in Hlb).
  split; [done|]. eexists la, lb, _, _. split; [done|].
  unfold live_handle. cbn.
  rewrite !lookup_insert_eq.
  rewrite !(lookup_insert_ne _ pb pa) by done.
  rewrite !(lookup_insert_ne _ lb la) by done.
  unfold ha, lya. rewrite !lookup_insert_eq.
  repeat split; by eauto.
Qed.

Lemma create_twice_distinct_witness :
  exists p1 s1 p2 s2,
    bsky_analog_layer_create true true (square 180) empty_world
    = Some (Some p1, s1) /\
    bsky_analog_layer_create true true (square 144) s1 = Some (Some p2, s2) /\
    p1 <> p2.
Proof.
  pose proof (create_success (square 180) empty_world) as H1.
  pose proof (create_success (square 144) (snd (default (None, empty_world)
                (bsky_analog_layer_create true true (square 180) empty_world))))
    as H2.
  rewrite H1 in H2. cbn [default snd] in H2.
  eexists _, _, _, _. split; [exact H1|]. split; [exact H2|].
  exact (proj1 (create_twice_distinct _ _ _ _ _ _ _ _ _ _ _ H1 H2)).
Defined.

(** In a well-formed world, the layer that [bsky_analog_layer_get_layer]
    hands out for a handle that exists is never [NULL], asking for it
    changes nothing, and redrawing it is defined: it paints the bounds and
    the state of that very layer and changes nothing either. *)
Theorem get_layer_redrawable polar s p :
  wf_world s -> is_Some (s.(handles) !! p) ->
  exists l L,
    bsky_analog_layer_get_layer p s = Some (Some l, s) /\
    s.(layers) !! l = Some L /\
    bsky_analog_layer_update polar (Some l) s
    = Some (trace_of (bsky_analog_layer_paint polar L.(layer_bounds)
                        L.(layer_data)), s).
Proof.
  intros Hwf Hp.
  destruct (wf_world_handle s p Hwf Hp) as (l & L & [Hh _] & Hl).
  exists l, L. split; [|split; [done | by apply update_live]].
  sys_unfold. by rewrite Hh.
Qed.

Lemma get_layer_redrawable_witness :
  exists l, bsky_analog_layer_get_layer 1 one_layer_world
            = Some (Some l, one_layer_world).
Proof.
  assert (Hp : is_Some (one_layer_world.(handles) !! 1%positive))
    by (eexists; reflexivity).
  destruct (get_layer_redrawable centre_polar one_layer_world 1
              wf_one_layer_world Hp) as (l & L & Hg & _).
  by exists l.
Defined.
